(** * MailBroker matching engine: a shallow embedding of
    [src/services/matching-engine.ts] and the properties checked on it.

    The engine object of the source becomes the record [Engine]; every method
    becomes a function that takes the engine (and what the method reads from
    the outside world) and returns the new engine.  What the methods send out
    (websocket events, WhatsApp messages, Redis publications) is appended to
    the [outbox] field. *)

From Stdlib Require Import ZArith String List Bool Lia Sorted.
From Stdlib Require Import Floats.PrimFloat Floats.FloatOps Floats.SpecFloat.
From Stdlib Require Import Numbers.Cyclic.Int63.Uint63.
From stdpp Require Import gmap strings list.

Open Scope string_scope.
Open Scope Z_scope.

(** ** JavaScript numbers

    Quantities are Prisma [Int] columns and prices are [Decimal(10,2)]
    columns; the embedding keeps a quantity as a [Z] and a price as a [Z]
    number of cents.  [Number(x)] of either is a binary64 float, which is
    what Rocq's primitive floats are.  Both columns stay far below 2^53, so
    the conversion of the integer is exact. *)

Definition Z2float (z : Z) : float :=
  if z <? 0 then PrimFloat.opp (of_uint63 (Uint63.of_Z (- z)))
  else of_uint63 (Uint63.of_Z z).

(** [Number(order.price)]: the double closest to cents/100. *)
Definition Number_price (cents : Z) : float :=
  PrimFloat.div (Z2float cents) (Z2float 100).

(** [Math.round]: the closest integer, a tie going up (towards +infinity).
    The float is taken apart into sign, mantissa and exponent, so the
    rounding itself is exact integer arithmetic. *)
Definition Math_round (x : float) : float :=
  match Prim2SF x with
  | S754_finite s m e =>
      let n := if s then Z.neg m else Z.pos m in
      let r := if 0 <=? e then n * 2 ^ e
               else (2 * n + 2 ^ (- e)) / 2 ^ (1 - e) in
      if (r =? 0) && s then neg_zero else Z2float r
  | _ => x
  end.

(** The literal [0.001] of the source, as the double it denotes. *)
Definition lit_0_001 : float := 0x1.0624dd2f1a9fcp-10%float.

(** [calculateCommission(amount, price)]:
    [Math.round((amount * price * 0.001) * 100) / 100]. *)
Definition calculateCommission (amount price : float) : float :=
  PrimFloat.div
    (Math_round
       (PrimFloat.mul
          (PrimFloat.mul (PrimFloat.mul amount price) lit_0_001)
          (Z2float 100)))
    (Z2float 100).

(** The commission in cents that exact arithmetic gives: amount * price *
    0.001 rounded to two decimals, a tie going up.  With the price in cents
    the exact value is [amount * cents / 1000] cents. *)
Definition exactCommissionCents (amount cents : Z) : Z :=
  (2 * amount * cents + 1000) / 2000.

(** ** Data model (prisma/schema.prisma) *)

Inductive OrderAction := BID | OFFER.
Inductive OrderStatus := ACTIVE | MATCHED | CANCELLED | EXPIRED.

#[global] Instance OrderAction_eq_dec : EqDecision OrderAction.
Proof. solve_decision. Defined.
#[global] Instance OrderStatus_eq_dec : EqDecision OrderStatus.
Proof. solve_decision. Defined.

Record Order := mkOrder {
  id : string;
  action : OrderAction;
  price : Z;                       (* cents *)
  asset : string;
  amount : Z;
  remaining : Z;
  matched : bool;
  counterparty : option string;
  status : OrderStatus;
  userId : string;
  createdAt : Z                    (* milliseconds *)
}.

(** A row of the [trades] table.  The generated [id] and [createdAt] columns
    are left out: nothing in the engine computes with them. *)
Record Trade := mkTrade {
  t_asset : string;
  t_price : Z;
  t_amount : Z;
  buyerOrderId : string;
  sellerOrderId : string;
  commission : float;
  buyerId : string;
  sellerId : string
}.

Definition set_price (p : Z) (o : Order) : Order :=
  mkOrder (id o) (action o) p (asset o) (amount o) (remaining o) (matched o)
          (counterparty o) (status o) (userId o) (createdAt o).

(** [data: { amount: q, remaining: q }] *)
Definition set_quantity (q : Z) (o : Order) : Order :=
  mkOrder (id o) (action o) (price o) (asset o) q q (matched o)
          (counterparty o) (status o) (userId o) (createdAt o).

(** The [data] of the two order updates inside the trade transaction. *)
Definition set_filled (rem : Z) (other : string) (o : Order) : Order :=
  mkOrder (id o) (action o) (price o) (asset o) (amount o) rem
          (rem =? 0)
          (if rem =? 0 then Some other else None)
          (if rem =? 0 then MATCHED else ACTIVE)
          (userId o) (createdAt o).

(** ** A JavaScript [Map] with string keys: an association list in insertion
    order, every key at most once. *)
Module JsMap.
Section JsMap.
Context {V : Type}.

Fixpoint get (k : string) (m : list (string * V)) : option V :=
  match m with
  | [] => None
  | (k', v) :: r => if String.eqb k k' then Some v else get k r
  end.

Definition has (k : string) (m : list (string * V)) : bool :=
  match get k m with Some _ => true | None => false end.

(** [set] keeps the position of a key that is already there. *)
Fixpoint set (k : string) (v : V) (m : list (string * V)) : list (string * V) :=
  match m with
  | [] => [(k, v)]
  | (k', v') :: r =>
      if String.eqb k k' then (k', v) :: r else (k', v') :: set k v r
  end.

Fixpoint delete (k : string) (m : list (string * V)) : list (string * V) :=
  match m with
  | [] => []
  | (k', v') :: r =>
      if String.eqb k k' then delete k r else (k', v') :: delete k r
  end.

End JsMap.
End JsMap.

(** ** What the engine sends out *)

Inductive Party := BUYER | SELLER.
Inductive Side := BUY | SELL.
Inductive ConfirmationState := AWAITING_SMALLER | AWAITING_LARGER.
Inductive MatchType := FULL_MATCH | PARTIAL_FILL_BUYER | PARTIAL_FILL_SELLER.

#[global] Instance Party_eq_dec : EqDecision Party.
Proof. solve_decision. Defined.
#[global] Instance ConfirmationState_eq_dec : EqDecision ConfirmationState.
Proof. solve_decision. Defined.
#[global] Instance MatchType_eq_dec : EqDecision MatchType.
Proof. solve_decision. Defined.

(** The payloads of [wsService.notifyUser]; the human-readable [message]
    field, a rendering of the other fields, is left out. *)
Inductive WsEvent :=
| QuantityConfirmationRequest
    (confirmationKey asset yourOrderId counterpartyOrderId : string)
    (yourQuantity counterpartyQuantity additionalQuantity price : Z) (side : Side)
| QuantityPartialFillApproval
    (confirmationKey asset yourOrderId counterpartyOrderId : string)
    (yourQuantity partialFillQuantity price : Z) (side : Side)
| NegotiationYourTurn
    (asset : string) (bestBid bestOffer : Z)
    (bestBidUserId bestOfferUserId : string) (turn : OrderAction)
| TradeExecuted
    (orderId asset : string) (price amount : Z) (side : Party)
    (isFullyFilled : bool) (remainingAmount : Z).

(** The WhatsApp texts, by what they ask and the figures they carry. *)
Inductive WhatsAppMessage :=
| WaQuantityConfirmation
    (asset : string) (price smallerQuantity largerQuantity additionalQuantity : Z)
    (orderIdPrefix : string)
| WaPartialFillApproval
    (asset : string) (price largerQuantity smallerQuantity : Z)
    (orderIdPrefix : string)
| WaCompetitiveBidding
    (asset : string) (yours : OrderAction) (bidPrice offerPrice : Z)
    (orderIdPrefix : string)
| WaTradeExecuted
    (asset : string) (side : Party) (amount price remainingAmount : Z)
    (orderIdPrefix : string).

(** The payload published on the Redis topic [trade:executed]. *)
Record TradePublished := mkTradePublished {
  p_trade : Trade;
  bidFullyMatched : bool;
  offerFullyMatched : bool;
  p_bidOrderId : string;
  p_offerOrderId : string;
  matchType : MatchType;
  partialFill : bool
}.

Inductive Effect :=
| WsNotifyUser (userId : string) (event : WsEvent)
| WsBroadcastMarketUpdate (asset : string) (bestBid bestOffer : Z)
| WhatsAppNotify (userId : string) (message : WhatsAppMessage)
| RedisPublish (payload : TradePublished)
| UpdateOrderBookInRedis (asset : string).

(** ** Timers

    [setTimeout] hands out a fresh handle and remembers the callback with its
    delay; [clearTimeout] forgets it; a timer that fires runs its callback and
    is forgotten.  The two closures the source passes to [setTimeout]: *)
Inductive TimerCallback :=
| ConfirmationTimeout (confirmationKey : string)
    (* () => this.handleQuantityConfirmationResponse(confirmationKey, false) *)
| NegotiationTimeout (asset : string) (bestBidPrice bestOfferPrice : Z).
    (* () => { broadcastMarketUpdate(..); this.negotiationState.delete(asset) } *)

(** ** The engine's in-memory state *)

(** An entry of [negotiationState]. *)
Record Negotiation := mkNegotiation {
  bestBid : Order;
  bestOffer : Order;
  turn : OrderAction;
  n_timeout : option nat
}.

(** An entry of [pendingConfirmations].  [state] is declared optional in the
    source but every entry is created with it. *)
Record Confirmation := mkConfirmation {
  confirmationKey : string;
  c_asset : string;
  bidOrder : Order;
  offerOrder : Order;
  smallerParty : Party;
  smallerQuantity : Z;
  largerQuantity : Z;
  additionalQuantity : Z;
  timeout : nat;
  c_createdAt : Z;
  state : ConfirmationState;
  smallerPartyResponse : option bool
}.

(** Modelled from the spec: [redisUtils] (src/config/redis) is not among the
    sources.  The shared key/value store holds, per key, a value and the
    expiry in seconds it was written with; [get] of a missing key is falsy, a
    stored boolean reads back as itself, and a timestamp string is truthy.
    Its calls are taken not to fail. *)
Inductive RedisValue := RedisBool (b : bool) | RedisTimestamp (ms : Z).

Definition truthy (v : option (RedisValue * Z)) : bool :=
  match v with
  | Some (RedisBool b, _) => b
  | Some (RedisTimestamp _, _) => true
  | None => false
  end.

Record Engine := mkEngine {
  store : gmap string Order;                      (* prisma.order, by id *)
  trades : list Trade;                            (* prisma.trade, oldest first *)
  redis : gmap string (RedisValue * Z);
  negotiationState : gmap string Negotiation;
  pendingConfirmations : list (string * Confirmation);
  lastOrdersCache : list Order;
  lastCacheTime : Z;
  declinedPartialFills : gset string;
  timers : gmap nat (TimerCallback * Z);
  nextTimer : nat;
  outbox : list Effect
}.

Definition cacheValidityMs : Z := 30000.

(** The engine as the constructor leaves it, over a given database. *)
Definition newEngine (db : gmap string Order) : Engine :=
  mkEngine db [] ∅ ∅ [] [] 0 ∅ ∅ 0%nat [].

Definition with_store (v : gmap string Order) (s : Engine) : Engine :=
  mkEngine v (trades s) (redis s) (negotiationState s) (pendingConfirmations s)
           (lastOrdersCache s) (lastCacheTime s) (declinedPartialFills s)
           (timers s) (nextTimer s) (outbox s).

Definition with_trades (v : list Trade) (s : Engine) : Engine :=
  mkEngine (store s) v (redis s) (negotiationState s) (pendingConfirmations s)
           (lastOrdersCache s) (lastCacheTime s) (declinedPartialFills s)
           (timers s) (nextTimer s) (outbox s).

Definition with_redis (v : gmap string (RedisValue * Z)) (s : Engine) : Engine :=
  mkEngine (store s) (trades s) v (negotiationState s) (pendingConfirmations s)
           (lastOrdersCache s) (lastCacheTime s) (declinedPartialFills s)
           (timers s) (nextTimer s) (outbox s).

Definition with_negotiationState (v : gmap string Negotiation) (s : Engine) : Engine :=
  mkEngine (store s) (trades s) (redis s) v (pendingConfirmations s)
           (lastOrdersCache s) (lastCacheTime s) (declinedPartialFills s)
           (timers s) (nextTimer s) (outbox s).

Definition with_pendingConfirmations (v : list (string * Confirmation)) (s : Engine) : Engine :=
  mkEngine (store s) (trades s) (redis s) (negotiationState s) v
           (lastOrdersCache s) (lastCacheTime s) (declinedPartialFills s)
           (timers s) (nextTimer s) (outbox s).

Definition with_cache (orders : list Order) (time : Z) (s : Engine) : Engine :=
  mkEngine (store s) (trades s) (redis s) (negotiationState s) (pendingConfirmations s)
           orders time (declinedPartialFills s)
           (timers s) (nextTimer s) (outbox s).

Definition with_declinedPartialFills (v : gset string) (s : Engine) : Engine :=
  mkEngine (store s) (trades s) (redis s) (negotiationState s) (pendingConfirmations s)
           (lastOrdersCache s) (lastCacheTime s) v
           (timers s) (nextTimer s) (outbox s).

Definition with_timers (v : gmap nat (TimerCallback * Z)) (n : nat) (s : Engine) : Engine :=
  mkEngine (store s) (trades s) (redis s) (negotiationState s) (pendingConfirmations s)
           (lastOrdersCache s) (lastCacheTime s) (declinedPartialFills s)
           v n (outbox s).

(** Effects are appended in the order the source performs them. *)
Definition emit (es : list Effect) (s : Engine) : Engine :=
  mkEngine (store s) (trades s) (redis s) (negotiationState s) (pendingConfirmations s)
           (lastOrdersCache s) (lastCacheTime s) (declinedPartialFills s)
           (timers s) (nextTimer s) (outbox s ++ es)%list.

Definition setTimeout (cb : TimerCallback) (delay : Z) (s : Engine) : nat * Engine :=
  (nextTimer s, with_timers (<[nextTimer s := (cb, delay)]> (timers s)) (S (nextTimer s)) s).

Definition clearTimeout (h : nat) (s : Engine) : Engine :=
  with_timers (delete h (timers s)) (nextTimer s) s.

(** [if (state.timeout) clearTimeout(state.timeout)] *)
Definition clearTimeout_opt (h : option nat) (s : Engine) : Engine :=
  match h with Some h => clearTimeout h s | None => s end.

Definition redis_set (k : string) (v : RedisValue) (ttl : Z) (s : Engine) : Engine :=
  with_redis (<[k := (v, ttl)]> (redis s)) s.

Definition redis_get (k : string) (s : Engine) : option (RedisValue * Z) :=
  redis s !! k.

(** What a method reads from the outside while it runs: the clock, and
    whether the database answers ([false]: every prisma call of the method
    rejects). *)
Record Env := mkEnv { now : Z; dbUp : bool }.

(** ** Sorting and the database queries *)

(** [Array.prototype.sort] with a comparator: a stable sort; [cmp a b <= 0]
    keeps [a] before [b]. *)
Fixpoint insertBy {A} (cmp : A → A → Z) (x : A) (l : list A) : list A :=
  match l with
  | [] => [x]
  | y :: r => if cmp x y <=? 0 then x :: y :: r else y :: insertBy cmp x r
  end.

Definition sortBy {A} (cmp : A → A → Z) (l : list A) : list A :=
  foldr (insertBy cmp) [] l.

(** [orderBy: [{ asset: 'asc' }, { price: 'desc' }, { createdAt: 'asc' }]];
    asset names are compared character by character. *)
Definition byAssetPriceCreatedAt (a b : Order) : Z :=
  match String.compare (asset a) (asset b) with
  | Lt => -1
  | Gt => 1
  | Eq => if price a =? price b then createdAt a - createdAt b
          else price b - price a
  end.

(** [orderBy: [{ price: 'desc' }, { createdAt: 'asc' }]] *)
Definition byPriceCreatedAt (a b : Order) : Z :=
  if price a =? price b then createdAt a - createdAt b else price b - price a.

(** [where: { status: 'ACTIVE', remaining: { gt: 0 } }] *)
Definition isActive (o : Order) : bool :=
  bool_decide (status o = ACTIVE) && (0 <? remaining o).

(** The rows of the [orders] table.  The queries of the engine [select] some
    columns only; the rows are kept whole here, and the engine reads from a
    snapshot no column that was not selected. *)
Definition rows (db : gmap string Order) : list Order :=
  (map_to_list db).*2.

(** [prisma.order.findMany] of [getActiveOrders]. *)
Definition findActiveOrders (db : gmap string Order) : list Order :=
  sortBy byAssetPriceCreatedAt (List.filter isActive (rows db)).

(** [prisma.order.findMany] of [processAsset]. *)
Definition findActiveOrdersForAsset (a : string) (db : gmap string Order) : list Order :=
  sortBy byPriceCreatedAt
    (List.filter (λ o, String.eqb (asset o) a && isActive o) (rows db)).

(** [prisma.order.update({ where: { id }, data })]: rejects when no row has
    that id. *)
Definition order_update (i : string) (f : Order → Order) (db : gmap string Order)
  : option (gmap string Order) :=
  match db !! i with
  | Some o => Some (<[i := f o]> db)
  | None => None
  end.

(** ** Snapshot cache *)

Definition getActiveOrders (env : Env) (s : Engine) : list Order * Engine :=
  if negb (lastCacheTime s =? 0) && (now env - lastCacheTime s <? cacheValidityMs)
  then (lastOrdersCache s, s)
  else if dbUp env
  then let orders := findActiveOrders (store s) in
       (orders, with_cache orders (now env) s)
  else (lastOrdersCache s, s).        (* catch: return this.lastOrdersCache *)

Definition invalidateCache (s : Engine) : Engine := with_cache [] 0 s.

(** ** Notifications *)

(** [id.slice(0, 8)] *)
Definition slice8 (i : string) : string := String.substring 0 8 i.

(** [notifyUserViaWhatsApp]: the user row is looked up and the message sent
    to its phone; a failing lookup is caught and logged.  The users table is
    not part of the embedding: the effect records the message and the user it
    is meant for. *)
Definition notifyUserViaWhatsApp (env : Env) (user : string)
    (message : WhatsAppMessage) (s : Engine) : Engine :=
  if dbUp env then emit [WhatsAppNotify user message] s else s.

Definition lit_20 : float := Z2float 20.
Definition lit_100 : float := Z2float 100.

Definition sendCompetitiveBiddingAlerts (env : Env) (a : string)
    (bestBid bestOffer : Order) (s : Engine) : Engine :=
  let bidPrice := Number_price (price bestBid) in
  let offerPrice := Number_price (price bestOffer) in
  if PrimFloat.leb offerPrice bidPrice then s
  else
    let spread := PrimFloat.sub offerPrice bidPrice in
    let spreadPercentage := PrimFloat.mul (PrimFloat.div spread bidPrice) lit_100 in
    if PrimFloat.ltb lit_20 spreadPercentage then s
    else
      let s := notifyUserViaWhatsApp env (userId bestBid)
                 (WaCompetitiveBidding a BID (price bestBid) (price bestOffer)
                    (slice8 (id bestBid))) s in
      notifyUserViaWhatsApp env (userId bestOffer)
        (WaCompetitiveBidding a OFFER (price bestBid) (price bestOffer)
           (slice8 (id bestOffer))) s.

Definition sendTradeExecutedNotification (env : Env) (order : Order) (trade : Trade)
    (side : Party) (remainingAmount : Z) (s : Engine) : Engine :=
  let isFullyFilled := remainingAmount =? 0 in
  let s := emit [WsNotifyUser (userId order)
                   (TradeExecuted (id order) (asset order) (t_price trade)
                      (t_amount trade) side isFullyFilled remainingAmount)] s in
  notifyUserViaWhatsApp env (userId order)
    (WaTradeExecuted (asset order) side (t_amount trade) (t_price trade)
       remainingAmount (slice8 (id order))) s.

(** ** Trade committer *)

Definition classify (bidQuantity offerQuantity : Z) : MatchType :=
  if bidQuantity =? offerQuantity then FULL_MATCH
  else if bidQuantity <? offerQuantity then PARTIAL_FILL_BUYER
  else PARTIAL_FILL_SELLER.

(** The row [tx.trade.create] inserts. *)
Definition tradeOf (bid offer : Order) : Trade :=
  let tradeAmount := Z.min (remaining bid) (remaining offer) in
  let tradePrice := price offer in
  mkTrade (asset bid) tradePrice tradeAmount (id bid) (id offer)
          (calculateCommission (Z2float tradeAmount) (Number_price tradePrice))
          (userId bid) (userId offer).

(** The body of [prisma.$transaction]: the trade row, then the two order
    updates; [None] when an update rejects, and then nothing is written. *)
Definition matchTransaction (bid offer : Order) (db : gmap string Order)
  : option (gmap string Order * Trade * Z * Z) :=
  let trade := tradeOf bid offer in
  let bidRemaining := remaining bid - t_amount trade in
  let offerRemaining := remaining offer - t_amount trade in
  match order_update (id bid) (set_filled bidRemaining (userId offer)) db with
  | None => None
  | Some db1 =>
      match order_update (id offer) (set_filled offerRemaining (userId bid)) db1 with
      | None => None
      | Some db2 => Some (db2, trade, bidRemaining, offerRemaining)
      end
  end.

Definition executeMatch (env : Env) (bid offer : Order) (s : Engine) : Engine :=
  let mt := classify (remaining bid) (remaining offer) in
  if negb (dbUp env) then s
  else
    match matchTransaction bid offer (store s) with
    | None => s                        (* catch: logged *)
    | Some (db, trade, bidRemaining, offerRemaining) =>
        let s := with_trades (trades s ++ [trade])%list (with_store db s) in
        let s := invalidateCache s in
        let s := emit [UpdateOrderBookInRedis (asset bid);
                       RedisPublish
                         (mkTradePublished trade (bidRemaining =? 0)
                            (offerRemaining =? 0) (id bid) (id offer) mt
                            (negb (bool_decide (mt = FULL_MATCH))))] s in
        let s := sendTradeExecutedNotification env bid trade BUYER bidRemaining s in
        sendTradeExecutedNotification env offer trade SELLER offerRemaining s
    end.

(** ** Negotiation controller *)

Definition set_turn (t : OrderAction) (n : Negotiation) : Negotiation :=
  mkNegotiation (bestBid n) (bestOffer n) t (n_timeout n).

Definition set_n_timeout (h : option nat) (n : Negotiation) : Negotiation :=
  mkNegotiation (bestBid n) (bestOffer n) (turn n) h.

(** [notifyNegotiation].  The source does not await it; it is taken here as
    running to its end where it is called.  The two user rows it fetches only
    fill in the usernames of the payload, which the embedding leaves out; a
    rejected fetch ends the method before anything is sent. *)
Definition notifyNegotiation (env : Env) (a : string) (s : Engine) : Engine :=
  match negotiationState s !! a with
  | None => s
  | Some st =>
      if negb (dbUp env) then s
      else
        let ev := NegotiationYourTurn a (price (bestBid st)) (price (bestOffer st))
                    (userId (bestBid st)) (userId (bestOffer st)) (turn st) in
        let s := match turn st with
                 | OFFER => emit [WsNotifyUser (userId (bestOffer st)) ev] s
                 | BID => emit [WsNotifyUser (userId (bestBid st)) ev] s
                 end in
        let s := clearTimeout_opt (n_timeout st) s in
        let '(h, s) := setTimeout (NegotiationTimeout a (price (bestBid st))
                                     (price (bestOffer st))) 30000 s in
        with_negotiationState (<[a := set_n_timeout (Some h) st]> (negotiationState s)) s
  end.

(** ** Per-asset decision *)

(** The comparators of the two [sort] calls:
    [Number(b.price) - Number(a.price) || a.createdAt - b.createdAt] and
    [Number(a.price) - Number(b.price) || a.createdAt - b.createdAt]. *)
Definition compareBids (a b : Order) : Z :=
  if price b - price a =? 0 then createdAt a - createdAt b else price b - price a.

Definition compareOffers (a b : Order) : Z :=
  if price a - price b =? 0 then createdAt a - createdAt b else price a - price b.

Definition confirmationKeyOf (a : string) (bid offer : Order) : string :=
  a ++ ":" ++ id bid ++ ":" ++ id offer.

(** The quantity-mismatch branch of [processAssetMatching]. *)
Definition requestQuantityConfirmation (env : Env) (a : string)
    (bestBid bestOffer : Order) (s : Engine) : Engine :=
  let bidQuantity := remaining bestBid in
  let offerQuantity := remaining bestOffer in
  let smallerQuantity := Z.min bidQuantity offerQuantity in
  let largerQuantity := Z.max bidQuantity offerQuantity in
  let additionalQuantity := largerQuantity - smallerQuantity in
  let smallerParty := if bidQuantity <? offerQuantity then BUYER else SELLER in
  let smallerOrder := if bidQuantity <? offerQuantity then bestBid else bestOffer in
  let largerOrder := if bidQuantity <? offerQuantity then bestOffer else bestBid in
  let key := confirmationKeyOf a bestBid bestOffer in
  if JsMap.has key (pendingConfirmations s) then s
  else if bool_decide (key ∈ declinedPartialFills s) then s
  else
    let '(h, s) := setTimeout (ConfirmationTimeout key) 60000 s in
    let s := with_pendingConfirmations
               (JsMap.set key
                  (mkConfirmation key a bestBid bestOffer smallerParty
                     smallerQuantity largerQuantity additionalQuantity h
                     (now env) AWAITING_SMALLER None)
                  (pendingConfirmations s)) s in
    let s := emit [WsNotifyUser (userId smallerOrder)
                     (QuantityConfirmationRequest key a (id smallerOrder)
                        (id largerOrder) smallerQuantity largerQuantity
                        additionalQuantity (price bestBid)
                        (match smallerParty with BUYER => BUY | SELLER => SELL end))] s in
    notifyUserViaWhatsApp env (userId smallerOrder)
      (WaQuantityConfirmation a (price bestBid) smallerQuantity largerQuantity
         additionalQuantity (slice8 (id smallerOrder))) s.

(** The part of [processAssetMatching] after the price-match test. *)
Definition negotiate (env : Env) (a : string) (bestBid' bestOffer' : Order)
    (s : Engine) : Engine :=
  match negotiationState s !! a with
  | None =>
      notifyNegotiation env a
        (with_negotiationState
           (<[a := mkNegotiation bestBid' bestOffer' OFFER None]> (negotiationState s)) s)
  | Some st =>
      let bidChanged := negb (String.eqb (id bestBid') (id (bestBid st))) in
      let st1 := if bidChanged
                 then mkNegotiation bestBid' (bestOffer st) OFFER (n_timeout st)
                 else st in
      let offerChanged := negb (String.eqb (id bestOffer') (id (bestOffer st1))) in
      let st2 := if offerChanged
                 then mkNegotiation (bestBid st1) bestOffer' BID (n_timeout st1)
                 else st1 in
      if bidChanged || offerChanged
      then
        let s := with_negotiationState (<[a := st2]> (negotiationState s)) s in
        let s := clearTimeout_opt (n_timeout st2) s in
        notifyNegotiation env a s
      else s
  end.

Definition processAssetMatching (env : Env) (a : string) (orders : list Order)
    (s : Engine) : Engine :=
  let bids := List.filter (λ o, bool_decide (action o = BID)) orders in
  let offers := List.filter (λ o, bool_decide (action o = OFFER)) orders in
  match sortBy compareBids bids, sortBy compareOffers offers with
  | bestBid :: _, bestOffer :: _ =>
      if price bestBid =? price bestOffer
      then
        if negb (remaining bestBid =? remaining bestOffer)
        then requestQuantityConfirmation env a bestBid bestOffer s
        else executeMatch env bestBid bestOffer s
      else
        let s := if price bestBid <? price bestOffer
                 then sendCompetitiveBiddingAlerts env a bestBid bestOffer s
                 else s in
        negotiate env a bestBid bestOffer s
  | _, _ => s                         (* no bids or no offers *)
  end.

Definition handleNegotiationResponse (env : Env) (a user : string)
    (improved : bool) (newPrice : option Z) (s : Engine) : Engine :=
  match negotiationState s !! a with
  | None => s
  | Some st =>
      let s := clearTimeout_opt (n_timeout st) s in
      match improved, newPrice with
      | true, Some p =>
          let orderToUpdate :=
            if bool_decide (turn st = OFFER) && String.eqb (userId (bestOffer st)) user
            then Some (bestOffer st)
            else if bool_decide (turn st = BID) && String.eqb (userId (bestBid st)) user
            then Some (bestBid st)
            else None in
          let updated :=
            match orderToUpdate with
            | Some o => if dbUp env then order_update (id o) (set_price p) (store s)
                        else None
            | None => Some (store s)
            end in
          match updated with
          | None => s                 (* the update rejects; nothing catches it *)
          | Some db =>
              let '(orders, s) := getActiveOrders env (with_store db s) in
              processAssetMatching env a
                (List.filter (λ o, String.eqb (asset o) a) orders) s
          end
      | true, None =>
          let s := with_negotiationState
                     (<[a := set_turn (match turn st with BID => OFFER | OFFER => BID end) st]>
                        (negotiationState s)) s in
          notifyNegotiation env a s
      | false, _ =>
          let s := emit [WsBroadcastMarketUpdate a (price (bestBid st))
                           (price (bestOffer st))] s in
          with_negotiationState (delete a (negotiationState s)) s
      end
  end.

(** ** Quantity confirmation controller *)

Definition set_smallerPartyResponse (r : bool) (c : Confirmation) : Confirmation :=
  mkConfirmation (confirmationKey c) (c_asset c) (bidOrder c) (offerOrder c)
    (smallerParty c) (smallerQuantity c) (largerQuantity c) (additionalQuantity c)
    (timeout c) (c_createdAt c) (state c) (Some r).

(** [confirmation.state = 'AWAITING_LARGER'; confirmation.timeout = ...] *)
Definition await_larger (h : nat) (c : Confirmation) : Confirmation :=
  mkConfirmation (confirmationKey c) (c_asset c) (bidOrder c) (offerOrder c)
    (smallerParty c) (smallerQuantity c) (largerQuantity c) (additionalQuantity c)
    h (c_createdAt c) AWAITING_LARGER (smallerPartyResponse c).

(** [accepted && newQuantity]: an absent quantity and the quantity 0 are
    falsy. *)
Definition acceptedQuantity (accepted : bool) (newQuantity : option Z) : option Z :=
  match accepted, newQuantity with
  | true, Some q => if q =? 0 then None else Some q
  | _, _ => None
  end.

(** The [else] branch of the first step: ask the larger party. *)
Definition askLargerParty (env : Env) (key : string) (c : Confirmation)
    (s : Engine) : Engine :=
  let '(h, s) := setTimeout (ConfirmationTimeout key) 60000 s in
  let c := await_larger h c in
  let s := with_pendingConfirmations (JsMap.set key c (pendingConfirmations s)) s in
  let largerParty := match smallerParty c with BUYER => SELLER | SELLER => BUYER end in
  let largerOrder := match smallerParty c with
                     | BUYER => offerOrder c | SELLER => bidOrder c end in
  let s := emit [WsNotifyUser (userId largerOrder)
                   (QuantityPartialFillApproval key (c_asset c) (id largerOrder)
                      (match smallerParty c with
                       | BUYER => id (bidOrder c) | SELLER => id (offerOrder c) end)
                      (largerQuantity c) (smallerQuantity c) (price (bidOrder c))
                      (match largerParty with BUYER => BUY | SELLER => SELL end))] s in
  notifyUserViaWhatsApp env (userId largerOrder)
    (WaPartialFillApproval (c_asset c) (price (bidOrder c)) (largerQuantity c)
       (smallerQuantity c) (slice8 (id largerOrder))) s.

(** The [then] branch of the first step: the smaller party takes
    [newQuantity] lots. *)
Definition growAndMatch (env : Env) (key : string) (c : Confirmation) (q : Z)
    (s : Engine) : Engine :=
  let target := match smallerParty c with
                | BUYER => id (bidOrder c) | SELLER => id (offerOrder c) end in
  if negb (dbUp env) then s           (* catch: logged *)
  else
    match order_update target (set_quantity q) (store s) with
    | None => s                       (* catch: logged *)
    | Some db =>
        let s := with_store db s in
        match db !! id (bidOrder c), db !! id (offerOrder c) with
        | Some updatedBid, Some updatedOffer =>
            let s := with_pendingConfirmations
                       (JsMap.delete key (pendingConfirmations s)) s in
            executeMatch env updatedBid updatedOffer s
        | _, _ => s
        end
    end.

Definition handleQuantityConfirmationResponse (env : Env) (key : string)
    (accepted : bool) (newQuantity : option Z) (s : Engine) : Engine :=
  match JsMap.get key (pendingConfirmations s) with
  | None => s
  | Some c =>
      let s := clearTimeout (timeout c) s in
      match state c with
      | AWAITING_SMALLER =>
          let c := set_smallerPartyResponse accepted c in
          let s := with_pendingConfirmations
                     (JsMap.set key c (pendingConfirmations s)) s in
          match acceptedQuantity accepted newQuantity with
          | Some q => growAndMatch env key c q s
          | None => askLargerParty env key c s
          end
      | AWAITING_LARGER =>
          let s := with_pendingConfirmations
                     (JsMap.delete key (pendingConfirmations s)) s in
          if accepted
          then executeMatch env (bidOrder c) (offerOrder c) s
          else with_declinedPartialFills ({[key]} ∪ declinedPartialFills s) s
      end
  end.

(** ** Lookups for the response parser *)

Record ConfirmationDetails := mkDetails {
  d_asset : string;
  yourQuantity : Z;
  availableQuantity : Z;
  d_additionalQuantity : Z;
  d_side : Party
}.

Definition isUserInvolved (user : string) (c : Confirmation) : bool :=
  (bool_decide (smallerParty c = BUYER) && String.eqb (userId (bidOrder c)) user)
  || (bool_decide (smallerParty c = SELLER) && String.eqb (userId (offerOrder c)) user).

Definition getUserPendingConfirmations (user : string) (s : Engine)
  : list (string * ConfirmationDetails) :=
  map (λ kc, (kc.1, mkDetails (c_asset kc.2) (smallerQuantity kc.2)
                      (largerQuantity kc.2) (additionalQuantity kc.2)
                      (smallerParty kc.2)))
      (List.filter (λ kc, isUserInvolved user kc.2) (pendingConfirmations s)).

Definition getPendingConfirmationByOrderId (orderIdPart : string) (s : Engine)
  : option string :=
  match List.find (λ kc, String.prefix orderIdPart (id (bidOrder kc.2))
                         || String.prefix orderIdPart (id (offerOrder kc.2)))
                  (pendingConfirmations s) with
  | Some kc => Some kc.1
  | None => None
  end.

(** The user a pending confirmation is waiting for: the smaller party while
    it is [AWAITING_SMALLER], the larger party while [AWAITING_LARGER].  This
    is who the engine has last sent the request to. *)
Definition awaitedUser (c : Confirmation) : string :=
  match state c, smallerParty c with
  | AWAITING_SMALLER, BUYER => userId (bidOrder c)
  | AWAITING_SMALLER, SELLER => userId (offerOrder c)
  | AWAITING_LARGER, BUYER => userId (offerOrder c)
  | AWAITING_LARGER, SELLER => userId (bidOrder c)
  end.

(** ** Matching loop *)

(** [ordersByAsset], an object used as a map from asset to its orders, in
    the order [Object.entries] lists it (asset names are not integer-like and
    not names of [Object.prototype]). *)
Definition groupByAsset (orders : list Order) : list (string * list Order) :=
  fold_left
    (λ acc o, match JsMap.get (asset o) acc with
              | None => JsMap.set (asset o) [o] acc
              | Some l => JsMap.set (asset o) (l ++ [o])%list acc
              end)
    orders [].

(** [(a, b) => b[1].length - a[1].length] *)
Definition byCountDesc (x y : string * list Order) : Z :=
  Z.of_nat (length y.2) - Z.of_nat (length x.2).

Definition processMatchingInMemory (env : Env) (orders : list Order)
    (s : Engine) : Engine :=
  fold_left (λ s e, processAssetMatching env e.1 e.2 s)
            (sortBy byCountDesc (groupByAsset orders)) s.

Definition flagKey : string := "matching:has_active_orders".
Definition lastRunKey : string := "matching:last_run".

Definition processMatching (env : Env) (s : Engine) : Engine :=
  let s := redis_set lastRunKey (RedisTimestamp (now env)) 600 s in
  let hasActiveOrders := redis_get flagKey s in
  if truthy hasActiveOrders
  then
    let '(activeOrders, s) := getActiveOrders env s in
    if (length activeOrders =? 0)%nat then s
    else processMatchingInMemory env activeOrders s
  else
    let '(activeOrders, s) := getActiveOrders env s in
    if (0 <? length activeOrders)%nat
    then
      let s := redis_set flagKey (RedisBool true) 300 s in
      if (length activeOrders =? 0)%nat then s
      else processMatchingInMemory env activeOrders s
    else redis_set flagKey (RedisBool false) 300 s.

Definition markActiveOrders (s : Engine) : Engine :=
  redis_set flagKey (RedisBool true) 300 s.

Definition processAsset (env : Env) (a : string) (s : Engine) : Engine :=
  if negb (dbUp env) then s           (* catch: logged *)
  else
    let orders := findActiveOrdersForAsset a (store s) in
    if (length orders <? 2)%nat then s
    else invalidateCache (processAssetMatching env a orders s).

(** ** The engine as a transition system

    What can happen to a running engine: the interval fires, the host calls
    one of the public methods, a timer fires, or some other part of the
    application writes to the database. *)
Inductive Event :=
| Tick (env : Env)
| ProcessAsset (env : Env) (a : string)
| NegotiationResponse (env : Env) (a user : string) (improved : bool)
    (newPrice : option Z)
| QuantityConfirmationResponse (env : Env) (key : string) (accepted : bool)
    (newQuantity : option Z)
| MarkActiveOrders
| TimerFires (env : Env) (h : nat)
| DatabaseWrite (db : gmap string Order).

Definition runTimer (env : Env) (h : nat) (s : Engine) : Engine :=
  match timers s !! h with
  | None => s                          (* cleared, or already run *)
  | Some (cb, _) =>
      let s := clearTimeout h s in
      match cb with
      | ConfirmationTimeout key =>
          handleQuantityConfirmationResponse env key false None s
      | NegotiationTimeout a bid offer =>
          let s := emit [WsBroadcastMarketUpdate a bid offer] s in
          with_negotiationState (delete a (negotiationState s)) s
      end
  end.

Definition step (e : Event) (s : Engine) : Engine :=
  match e with
  | Tick env => processMatching env s
  | ProcessAsset env a => processAsset env a s
  | NegotiationResponse env a user improved newPrice =>
      handleNegotiationResponse env a user improved newPrice s
  | QuantityConfirmationResponse env key accepted newQuantity =>
      handleQuantityConfirmationResponse env key accepted newQuantity s
  | MarkActiveOrders => markActiveOrders s
  | TimerFires env h => runTimer env h s
  | DatabaseWrite db => with_store db s
  end.

Definition run (es : list Event) (s : Engine) : Engine :=
  fold_left (λ s e, step e s) es s.

(** * Vocabulary of the properties *)

(** [untouched s s']: going from [s] to [s'] changed neither the pending
    confirmations, nor the declined pairs, nor the Redis keys. *)
Definition untouched (s s' : Engine) : Prop :=
  pendingConfirmations s' = pendingConfirmations s
  ∧ declinedPartialFills s' = declinedPartialFills s
  ∧ redis s' = redis s.

(** [reopens_nothing s s']: the declined pairs and the Redis keys are the
    same, and no declined key has had its pending confirmation touched. *)
Definition reopens_nothing (s s' : Engine) : Prop :=
  declinedPartialFills s' = declinedPartialFills s
  ∧ redis s' = redis s
  ∧ ∀ key, key ∈ declinedPartialFills s →
      JsMap.get key (pendingConfirmations s') = JsMap.get key (pendingConfirmations s).

(** The invariant of the engine: a declined key has no pending
    confirmation. *)
Definition declined_closed (s : Engine) : Prop :=
  ∀ key, key ∈ declinedPartialFills s →
    JsMap.get key (pendingConfirmations s) = None.

(** The order on each side of a confirmation, by size. *)
Definition smallerOrderId (c : Confirmation) : string :=
  match smallerParty c with BUYER => id (bidOrder c) | SELLER => id (offerOrder c) end.

Definition largerOrderOf (c : Confirmation) : Order :=
  match smallerParty c with BUYER => offerOrder c | SELLER => bidOrder c end.

Definition sideOfLarger (c : Confirmation) : Side :=
  match smallerParty c with BUYER => SELL | SELLER => BUY end.

(** The user whose turn it is in a negotiation. *)
Definition turnUser (n : Negotiation) : string :=
  match turn n with
  | BID => userId (bestBid n)
  | OFFER => userId (bestOffer n)
  end.

(** What [processAssetMatching] takes as best bid and best offer. *)
Definition bestBidOf (orders : list Order) : option Order :=
  head (sortBy compareBids (List.filter (λ o, bool_decide (action o = BID)) orders)).

Definition bestOfferOf (orders : list Order) : option Order :=
  head (sortBy compareOffers (List.filter (λ o, bool_decide (action o = OFFER)) orders)).

(** The orders a tick gets to see. *)
Definition observed (env : Env) (s : Engine) : list Order :=
  (getActiveOrders env (redis_set lastRunKey (RedisTimestamp (now env)) 600 s)).1.

(** The flag rule as the spec words it: whatever the flag was, after the
    tick it says whether any active order was observed, with a 300 s
    expiry. *)
Definition flag_follows_count (env : Env) (s : Engine) : Prop :=
  redis_get flagKey (processMatching env s)
  = Some (RedisBool (0 <? length (observed env s))%nat, 300).

(** ** The history of the snapshot cache

    The cache is read by [getActiveOrders] and emptied by [invalidateCache].
    Next to the engine, a history keeps what the code does not: the vector
    the last successful query returned, and whether the cache was invalidated
    after it. *)
Inductive CacheOp :=
| Access (env : Env) (db : gmap string Order)   (* getActiveOrders, over this database *)
| Invalidate.                                   (* invalidateCache *)

Record CacheHistory := mkHistory {
  lastFetched : list Order;
  invalidatedSince : bool
}.

(** The first test of [getActiveOrders]. *)
Definition cacheValid (env : Env) (s : Engine) : bool :=
  negb (lastCacheTime s =? 0) && (now env - lastCacheTime s <? cacheValidityMs).

Definition cacheStep (sh : Engine * CacheHistory) (op : CacheOp)
  : Engine * CacheHistory :=
  match op with
  | Access env db =>
      let s := with_store db sh.1 in
      ((getActiveOrders env s).2,
       if negb (cacheValid env s) && dbUp env
       then mkHistory (findActiveOrders db) false
       else sh.2)
  | Invalidate => (invalidateCache sh.1, mkHistory (lastFetched sh.2) true)
  end.

Definition cacheRun (ops : list CacheOp) : Engine * CacheHistory :=
  fold_left cacheStep ops (newEngine ∅, mkHistory [] false).

(** The failure rule as the spec words it: a failed query outside the
    validity window returns the vector most recently fetched. *)
Definition failure_returns_last_fetched : Prop :=
  ∀ ops env db,
    dbUp env = false →
    cacheValid env (cacheRun ops).1 = false →
    (getActiveOrders env (with_store db (cacheRun ops).1)).1
    = lastFetched (cacheRun ops).2.

(** The lookup rule as the spec words it: a pending confirmation is listed
    for a user exactly when that user is the one awaited. *)
Definition lists_awaited (user : string) (s : Engine) : Prop :=
  ∀ key c, JsMap.get key (pendingConfirmations s) = Some c →
    (key ∈ (getUserPendingConfirmations user s).*1 ↔ awaitedUser c = user).

(** ** Scenarios *)

(** The first scenario of the spec: 5 lots against 5 at 100.00. *)
Definition order_B1 : Order :=
  mkOrder "B1" BID 10000 "gold" 5 5 false None ACTIVE "u1" 1.
Definition order_O1 : Order :=
  mkOrder "O1" OFFER 10000 "gold" 5 5 false None ACTIVE "u2" 2.
Definition db_B1_O1 : gmap string Order :=
  <["B1" := order_B1]> (<["O1" := order_O1]> ∅).

(** The second scenario of the spec: 3 lots against 7 at 50.00; the buyer
    accepts 7 lots.  The confirmation was opened with the 3-lot bid; the
    trade is for 7 lots. *)
Definition order_B2 : Order :=
  mkOrder "B2" BID 5000 "gold" 3 3 false None ACTIVE "u1" 1.
Definition order_O2 : Order :=
  mkOrder "O2" OFFER 5000 "gold" 7 7 false None ACTIVE "u2" 2.
Definition db_B2_O2 : gmap string Order :=
  <["B2" := order_B2]> (<["O2" := order_O2]> ∅).
Definition confirmation_B2_O2 : Confirmation :=
  mkConfirmation "gold:B2:O2" "gold" order_B2 order_O2 BUYER 3 7 4 0%nat 100000
                 AWAITING_SMALLER None.

(** The scenario of the spec in which both parties say no: a bid for 2 lots
    and an offer for 5 at the same price. *)
Definition order_B3 : Order :=
  mkOrder "B3" BID 1000 "gold" 2 2 false None ACTIVE "u1" 1.
Definition order_O3 : Order :=
  mkOrder "O3" OFFER 1000 "gold" 5 5 false None ACTIVE "u2" 2.
Definition db_B3_O3 : gmap string Order :=
  <["B3" := order_B3]> (<["O3" := order_O3]> ∅).

(** The fifth scenario of the spec: a bid at 9.50 below an offer at 10.00. *)
Definition order_B4 : Order :=
  mkOrder "B4" BID 950 "gold" 1 1 false None ACTIVE "u1" 1.
Definition order_O4 : Order :=
  mkOrder "O4" OFFER 1000 "gold" 1 1 false None ACTIVE "u2" 2.
Definition db_B4_O4 : gmap string Order :=
  <["B4" := order_B4]> (<["O4" := order_O4]> ∅).

(** A crossing book: a bid at 101.00 above an offer at 100.00, 5 lots
    each. *)
Definition order_B5 : Order :=
  mkOrder "B5" BID 10100 "gold" 5 5 false None ACTIVE "u1" 1.
Definition order_O5 : Order :=
  mkOrder "O5" OFFER 10000 "gold" 5 5 false None ACTIVE "u2" 2.

(** * The rest of the engine *)

(** ** Order book ([getOrderBook]) *)

Record OrderBook := mkOrderBook {
  ob_asset : string;
  ob_bids : list Order;
  ob_offers : list Order;
  totalBids : nat;
  totalOffers : nat;
  ob_timestamp : Z
}.

(** The query is the one of [processAsset] without the [select]; a rejected
    query gives the empty book. *)
Definition getOrderBook (env : Env) (a : string) (s : Engine) : OrderBook :=
  if dbUp env
  then
    let orders := findActiveOrdersForAsset a (store s) in
    let bids := List.filter (λ o, bool_decide (action o = BID)) orders in
    let offers := List.filter (λ o, bool_decide (action o = OFFER)) orders in
    mkOrderBook a (take 10 bids) (take 10 offers) (length bids) (length offers)
                (now env)
  else mkOrderBook a [] [] 0 0 (now env).

(** ** Starting and stopping ([start], [stop])

    [start] arms a 10 s [setTimeout] whose callback creates the interval and
    stores its handle in [matchingInterval]; [stop] clears the interval whose
    handle is stored.  [graceTimers] counts the armed 10 s callbacks and
    [intervals] is the set of live intervals, each of which keeps calling
    [processMatching]. *)
Record Lifecycle := mkLifecycle {
  isRunning : bool;
  matchingInterval : option nat;
  graceTimers : nat;
  intervals : gset nat;
  nextInterval : nat
}.

Definition newLifecycle : Lifecycle := mkLifecycle false None 0 ∅ 0.

Definition start (l : Lifecycle) : Lifecycle :=
  if isRunning l then l
  else mkLifecycle true (matchingInterval l) (S (graceTimers l)) (intervals l)
                   (nextInterval l).

Definition stop (l : Lifecycle) : Lifecycle :=
  if negb (isRunning l) then l
  else
    match matchingInterval l with
    | Some h => mkLifecycle false None (graceTimers l) (intervals l ∖ {[h]})
                            (nextInterval l)
    | None => mkLifecycle false None (graceTimers l) (intervals l) (nextInterval l)
    end.

(** One of the armed 10 s callbacks runs:
    [this.matchingInterval = setInterval(...)]. *)
Definition graceElapsed (l : Lifecycle) : Lifecycle :=
  match graceTimers l with
  | O => l
  | S n => mkLifecycle (isRunning l) (Some (nextInterval l)) n
                       ({[nextInterval l]} ∪ intervals l) (S (nextInterval l))
  end.

(** ** More vocabulary *)

(** [a] comes no later than [b] in the order of a comparator. *)
Definition before {A} (cmp : A → A → Z) (a b : A) : Prop := cmp a b ≤ 0.

(** The decision [processAssetMatching] takes once it has a best bid and a
    best offer. *)
Definition decide_pair (env : Env) (a : string) (b o : Order) (s : Engine) : Engine :=
  if price b =? price o
  then if negb (remaining b =? remaining o)
       then requestQuantityConfirmation env a b o s
       else executeMatch env b o s
  else negotiate env a b o
         (if price b <? price o
          then sendCompetitiveBiddingAlerts env a b o s else s).

(** What [requestQuantityConfirmation] puts into a confirmation, and what
    the later steps keep of it. *)
Record confirmation_ok (key : string) (c : Confirmation) : Prop := {
  ok_key : confirmationKey c = key;
  ok_key_parts : key = confirmationKeyOf (c_asset c) (bidOrder c) (offerOrder c);
  ok_bid : action (bidOrder c) = BID;
  ok_offer : action (offerOrder c) = OFFER;
  ok_price : price (bidOrder c) = price (offerOrder c);
  ok_smaller : smallerQuantity c
               = Z.min (remaining (bidOrder c)) (remaining (offerOrder c));
  ok_larger : largerQuantity c
              = Z.max (remaining (bidOrder c)) (remaining (offerOrder c));
  ok_additional : additionalQuantity c = largerQuantity c - smallerQuantity c;
  ok_positive : 0 < additionalQuantity c;
  ok_party : smallerParty c
             = if remaining (bidOrder c) <? remaining (offerOrder c)
               then BUYER else SELLER
}.

(** A map of confirmations has each key once, and under each key a
    confirmation built for that key. *)
Definition entries_ok (m : list (string * Confirmation)) : Prop :=
  NoDup m.*1 ∧ ∀ key c, JsMap.get key m = Some c → confirmation_ok key c.

Definition pending_ok (s : Engine) : Prop := entries_ok (pendingConfirmations s).

(** The columns of an order the engine never writes, and the ones only a
    commit leaves alone. *)
Definition same_identity (o o' : Order) : Prop :=
  id o' = id o ∧ action o' = action o ∧ asset o' = asset o
  ∧ userId o' = userId o ∧ createdAt o' = createdAt o.

Definition same_terms (o o' : Order) : Prop :=
  same_identity o o' ∧ price o' = price o ∧ amount o' = amount o.

(** Row by row, two databases hold related orders under the same ids. *)
Definition rows_related (R : Order → Order → Prop) (db db' : gmap string Order) : Prop :=
  ∀ k, option_Forall2 R (db !! k) (db' !! k).

Definition isDatabaseWrite (e : Event) : bool :=
  match e with DatabaseWrite _ => true | _ => false end.

(** The user of the smaller side's order of a confirmation. *)
Definition smallerUser (c : Confirmation) : string :=
  match smallerParty c with
  | BUYER => userId (bidOrder c)
  | SELLER => userId (offerOrder c)
  end.

Definition detailsOf (c : Confirmation) : ConfirmationDetails :=
  mkDetails (c_asset c) (smallerQuantity c) (largerQuantity c)
            (additionalQuantity c) (smallerParty c).

(** The test of [getPendingConfirmationByOrderId]. *)
Definition matchesOrderIdPart (part : string) (c : Confirmation) : bool :=
  String.prefix part (id (bidOrder c)) || String.prefix part (id (offerOrder c)).

(** The assets [processMatchingInMemory] goes through, each with its orders,
    in the order it takes them. *)
Definition schedule (orders : list Order) : list (string * list Order) :=
  sortBy byCountDesc (groupByAsset orders).

Definition ordersOf (a : string) (orders : list Order) : list Order :=
  List.filter (λ o, String.eqb (asset o) a) orders.

(** Between two states of the engine: trades were only appended, and the
    rows of the database are related one by one. *)
Definition evolves (R : Order → Order → Prop) (s s' : Engine) : Prop :=
  trades s `prefix_of` trades s' ∧ rows_related R (store s) (store s').

(** * Properties *)

(** ** The insertion-ordered map *)
Module JsMapFacts.
Section JsMapFacts.
Context {V : Type}.
Implicit Types (k : string) (v : V) (m : list (string * V)).

Lemma get_set_eq k v m : JsMap.get k (JsMap.set k v m) = Some v.
Proof.
  induction m as [|[k' v'] r IH]; simpl.
  - by rewrite String.eqb_refl.
  - destruct (String.eqb k k') eqn:E; simpl; rewrite E; auto.
Qed.

Lemma get_set_ne k k' v m :
  k ≠ k' → JsMap.get k (JsMap.set k' v m) = JsMap.get k m.
Proof.
  intros Hne. induction m as [|[k2 v2] r IH]; simpl.
  - destruct (String.eqb_spec k k'); congruence.
  - destruct (String.eqb_spec k' k2) as [->|]; simpl.
    + destruct (String.eqb_spec k k2); congruence.
    + destruct (String.eqb_spec k k2); auto.
Qed.

Lemma get_delete_eq k m : JsMap.get k (JsMap.delete k m) = None.
Proof.
  induction m as [|[k' v'] r IH]; simpl; auto.
  destruct (String.eqb k k') eqn:E; simpl; [|rewrite E]; auto.
Qed.

Lemma get_delete_ne k k' m :
  k ≠ k' → JsMap.get k (JsMap.delete k' m) = JsMap.get k m.
Proof.
  intros Hne. induction m as [|[k2 v2] r IH]; simpl; auto.
  destruct (String.eqb_spec k' k2) as [->|]; simpl.
  - destruct (String.eqb_spec k k2); congruence.
  - destruct (String.eqb_spec k k2); auto.
Qed.

Lemma delete_set_eq k v m :
  JsMap.delete k (JsMap.set k v m) = JsMap.delete k m.
Proof.
  induction m as [|[k' v'] r IH]; simpl.
  - by rewrite String.eqb_refl.
  - destruct (String.eqb k k') eqn:E; simpl; rewrite E; [done | by rewrite IH].
Qed.

Lemma set_set_eq k v v' m :
  JsMap.set k v (JsMap.set k v' m) = JsMap.set k v m.
Proof.
  induction m as [|[k' w] r IH]; simpl.
  - by rewrite String.eqb_refl.
  - destruct (String.eqb k k') eqn:E; simpl; rewrite E; [done | by rewrite IH].
Qed.

End JsMapFacts.
End JsMapFacts.

(** ** What each method leaves alone *)

Lemma untouched_refl s : untouched s s.
Proof. by repeat split. Qed.

Lemma untouched_trans s1 s2 s3 :
  untouched s1 s2 → untouched s2 s3 → untouched s1 s3.
Proof. intros (?&?&?) (?&?&?). repeat split; congruence. Qed.

Lemma untouched_reopens_nothing s s' : untouched s s' → reopens_nothing s s'.
Proof. intros (Hp&?&?). repeat split; auto. intros. by rewrite Hp. Qed.

Lemma reopens_nothing_refl s : reopens_nothing s s.
Proof. by repeat split. Qed.

Lemma reopens_nothing_trans s1 s2 s3 :
  reopens_nothing s1 s2 → reopens_nothing s2 s3 → reopens_nothing s1 s3.
Proof.
  intros (Hd1&?&Hp1) (Hd2&?&Hp2). repeat split; try congruence.
  intros key Hk. rewrite Hp2; [by apply Hp1 | by rewrite Hd1].
Qed.


(** Unfold a method down to the record and split on every test it makes. *)
Ltac split_tests :=
  repeat (simpl in *;
          match goal with
          | |- context [match ?x with _ => _ end] => destruct x eqn:?
          end);
  simpl in *.

Lemma notifyUserViaWhatsApp_untouched env u m s :
  untouched s (notifyUserViaWhatsApp env u m s).
Proof. unfold notifyUserViaWhatsApp. split_tests; by repeat split. Qed.

Lemma getActiveOrders_untouched env s : untouched s (getActiveOrders env s).2.
Proof. unfold getActiveOrders. split_tests; by repeat split. Qed.

Lemma executeMatch_untouched env bid offer s :
  untouched s (executeMatch env bid offer s).
Proof.
  unfold executeMatch, sendTradeExecutedNotification, notifyUserViaWhatsApp.
  split_tests; by repeat split.
Qed.

Lemma sendCompetitiveBiddingAlerts_untouched env a b o s :
  untouched s (sendCompetitiveBiddingAlerts env a b o s).
Proof.
  unfold sendCompetitiveBiddingAlerts, notifyUserViaWhatsApp.
  split_tests; by repeat split.
Qed.

Lemma notifyNegotiation_untouched env a s :
  untouched s (notifyNegotiation env a s).
Proof.
  unfold notifyNegotiation, clearTimeout_opt, setTimeout.
  split_tests; by repeat split.
Qed.

Lemma negotiate_untouched env a b o s : untouched s (negotiate env a b o s).
Proof.
  unfold negotiate.
  destruct (negotiationState s !! a) as [st|].
  - destruct (_ || _); [|apply untouched_refl].
    eapply untouched_trans; [|apply notifyNegotiation_untouched].
    unfold clearTimeout_opt. split_tests; by repeat split.
  - eapply untouched_trans; [|apply notifyNegotiation_untouched].
    by repeat split.
Qed.

Lemma requestQuantityConfirmation_reopens_nothing env a b o s :
  reopens_nothing s (requestQuantityConfirmation env a b o s).
Proof.
  unfold requestQuantityConfirmation.
  destruct (JsMap.has _ _); [apply reopens_nothing_refl|].
  case_bool_decide as Hdecl; [apply reopens_nothing_refl|].
  unfold setTimeout, notifyUserViaWhatsApp.
  split_tests; repeat split; intros key Hk; simpl;
    (rewrite JsMapFacts.get_set_ne; [done | by intros ->]).
Qed.

Lemma processAssetMatching_reopens_nothing env a orders s :
  reopens_nothing s (processAssetMatching env a orders s).
Proof.
  unfold processAssetMatching.
  destruct (sortBy compareBids _) as [|b ?]; [apply reopens_nothing_refl|].
  destruct (sortBy compareOffers _) as [|o ?]; [apply reopens_nothing_refl|].
  destruct (price b =? price o).
  - destruct (negb _).
    + apply requestQuantityConfirmation_reopens_nothing.
    + apply untouched_reopens_nothing, executeMatch_untouched.
  - apply untouched_reopens_nothing.
    eapply untouched_trans; [|apply negotiate_untouched].
    destruct (_ <? _); [apply sendCompetitiveBiddingAlerts_untouched
                       |apply untouched_refl].
Qed.

Lemma processMatchingInMemory_reopens_nothing env orders s :
  reopens_nothing s (processMatchingInMemory env orders s).
Proof.
  unfold processMatchingInMemory.
  generalize (sortBy byCountDesc (groupByAsset orders)). intros l.
  revert s. induction l as [|e l IH]; intros s; simpl.
  - apply reopens_nothing_refl.
  - eapply reopens_nothing_trans; [|apply IH].
    apply processAssetMatching_reopens_nothing.
Qed.

Lemma handleNegotiationResponse_reopens_nothing env a user improved newPrice s :
  reopens_nothing s (handleNegotiationResponse env a user improved newPrice s).
Proof.
  unfold handleNegotiationResponse.
  destruct (negotiationState s !! a) as [st|]; [|apply reopens_nothing_refl].
  assert (Hclear : untouched s (clearTimeout_opt (n_timeout st) s)).
  { unfold clearTimeout_opt. split_tests; by repeat split. }
  destruct improved; [destruct newPrice as [p|]|].
  - match goal with
    | |- context [match ?u with Some _ => _ | None => _ end] =>
        destruct u as [db|]
    end; [|by apply untouched_reopens_nothing].
    destruct (getActiveOrders env _) as [orders s1] eqn:Hget.
    eapply reopens_nothing_trans; [|apply processAssetMatching_reopens_nothing].
    apply untouched_reopens_nothing.
    eapply untouched_trans; [apply Hclear|].
    eapply untouched_trans;
      [|pose proof (getActiveOrders_untouched env
                      (with_store db (clearTimeout_opt (n_timeout st) s))) as H;
        rewrite Hget in H; exact H].
    by repeat split.
  - apply untouched_reopens_nothing.
    eapply untouched_trans; [apply Hclear|].
    eapply untouched_trans; [|apply notifyNegotiation_untouched].
    by repeat split.
  - apply untouched_reopens_nothing.
    eapply untouched_trans; [apply Hclear|]. by repeat split.
Qed.

Lemma processMatching_reopens_pending env s :
  declinedPartialFills (processMatching env s) = declinedPartialFills s
  ∧ ∀ key, key ∈ declinedPartialFills s →
      JsMap.get key (pendingConfirmations (processMatching env s))
      = JsMap.get key (pendingConfirmations s).
Proof.
  unfold processMatching.
  set (s0 := redis_set lastRunKey _ 600 s).
  pose proof (getActiveOrders_untouched env s0) as (Hp&Hd&_).
  destruct (getActiveOrders env s0) as [orders s1]. simpl in Hp, Hd.
  assert (Hframe : ∀ s2,
             pendingConfirmations s2 = pendingConfirmations s1 →
             declinedPartialFills s2 = declinedPartialFills s1 →
             declinedPartialFills (processMatchingInMemory env orders s2)
             = declinedPartialFills s
             ∧ ∀ key, key ∈ declinedPartialFills s →
                 JsMap.get key (pendingConfirmations
                                  (processMatchingInMemory env orders s2))
                 = JsMap.get key (pendingConfirmations s)).
  { intros s2 Hp2 Hd2.
    destruct (processMatchingInMemory_reopens_nothing env orders s2) as (Hd3&_&Hp3).
    split; [by rewrite Hd3, Hd2, Hd|].
    intros key Hk. rewrite Hp3; [by rewrite Hp2, Hp | by rewrite Hd2, Hd]. }
  destruct (truthy _).
  - destruct (_ =? _)%nat; [by rewrite Hp, Hd | by apply Hframe].
  - destruct (_ <? _)%nat; [|simpl; by rewrite Hp, Hd].
    destruct (_ =? _)%nat; [simpl; by rewrite Hp, Hd | by apply Hframe].
Qed.

Lemma processAsset_reopens_nothing env a s :
  reopens_nothing s (processAsset env a s).
Proof.
  unfold processAsset.
  destruct (negb _); [apply reopens_nothing_refl|].
  destruct (_ <? _)%nat; [apply reopens_nothing_refl|].
  eapply reopens_nothing_trans; [apply processAssetMatching_reopens_nothing|].
  by repeat split.
Qed.

(** ** Declined pairs stay closed (C2) *)

Lemma declined_closed_reopens_nothing s s' :
  reopens_nothing s s' → declined_closed s → declined_closed s'.
Proof.
  intros (Hd&_&Hp) Hinv key Hk. rewrite Hd in Hk.
  rewrite Hp by done. by apply Hinv.
Qed.

Lemma growAndMatch_pending env key0 c q s key :
  key ≠ key0 →
  JsMap.get key (pendingConfirmations (growAndMatch env key0 c q s))
  = JsMap.get key (pendingConfirmations s).
Proof.
  intros Hne. unfold growAndMatch.
  destruct (negb _); [done|].
  destruct (order_update _ _ _) as [db|]; [|done].
  destruct (db !! _) as [ub|]; [|done]. destruct (db !! _) as [uo|]; [|done].
  destruct (executeMatch_untouched env ub uo
              (with_pendingConfirmations
                 (JsMap.delete key0 (pendingConfirmations (with_store db s)))
                 (with_store db s))) as (->&_&_).
  simpl. by rewrite JsMapFacts.get_delete_ne.
Qed.

Lemma growAndMatch_declined env key0 c q s :
  declinedPartialFills (growAndMatch env key0 c q s) = declinedPartialFills s.
Proof.
  unfold growAndMatch.
  destruct (negb _); [done|].
  destruct (order_update _ _ _) as [db|]; [|done].
  destruct (db !! _) as [ub|]; [|done]. destruct (db !! _) as [uo|]; [|done].
  by destruct (executeMatch_untouched env ub uo
              (with_pendingConfirmations
                 (JsMap.delete key0 (pendingConfirmations (with_store db s)))
                 (with_store db s))) as (_&->&_).
Qed.

Lemma askLargerParty_pending env key0 c s key :
  key ≠ key0 →
  JsMap.get key (pendingConfirmations (askLargerParty env key0 c s))
  = JsMap.get key (pendingConfirmations s).
Proof.
  intros Hne. unfold askLargerParty, setTimeout, notifyUserViaWhatsApp.
  split_tests; by rewrite JsMapFacts.get_set_ne.
Qed.

Lemma askLargerParty_declined env key0 c s :
  declinedPartialFills (askLargerParty env key0 c s) = declinedPartialFills s.
Proof.
  unfold askLargerParty, setTimeout, notifyUserViaWhatsApp. by split_tests.
Qed.

Lemma handleQuantityConfirmationResponse_declined_closed env key0 acc nq s :
  declined_closed s →
  declined_closed (handleQuantityConfirmationResponse env key0 acc nq s).
Proof.
  intros Hinv. unfold handleQuantityConfirmationResponse.
  destruct (JsMap.get key0 (pendingConfirmations s)) as [c|] eqn:Hget; [|done].
  assert (Hother : ∀ key, key ∈ declinedPartialFills s → key ≠ key0).
  { intros key Hk ->. apply Hinv in Hk. congruence. }
  destruct (state c).
  - destruct (acceptedQuantity acc nq) as [q|]; intros key Hk.
    + rewrite growAndMatch_declined in Hk. simpl in Hk.
      rewrite growAndMatch_pending by auto. simpl.
      rewrite JsMapFacts.get_set_ne by auto. by apply Hinv.
    + rewrite askLargerParty_declined in Hk. simpl in Hk.
      rewrite askLargerParty_pending by auto. simpl.
      rewrite JsMapFacts.get_set_ne by auto. by apply Hinv.
  - destruct acc; intros key Hk.
    + destruct (executeMatch_untouched env (bidOrder c) (offerOrder c)
                  (with_pendingConfirmations
                     (JsMap.delete key0 (pendingConfirmations (clearTimeout (timeout c) s)))
                     (clearTimeout (timeout c) s))) as (Hp&Hd&_).
      rewrite Hd in Hk. rewrite Hp. simpl in *.
      rewrite JsMapFacts.get_delete_ne by auto. by apply Hinv.
    + simpl in *. apply elem_of_union in Hk as [Hk|Hk].
      * apply elem_of_singleton in Hk as ->. apply JsMapFacts.get_delete_eq.
      * rewrite JsMapFacts.get_delete_ne by auto. by apply Hinv.
Qed.

Lemma handleQuantityConfirmationResponse_declined_mono env key0 acc nq s key :
  key ∈ declinedPartialFills s →
  key ∈ declinedPartialFills (handleQuantityConfirmationResponse env key0 acc nq s).
Proof.
  intros Hk. unfold handleQuantityConfirmationResponse.
  destruct (JsMap.get key0 (pendingConfirmations s)) as [c|]; [|done].
  destruct (state c).
  - destruct (acceptedQuantity acc nq) as [q|].
    + by rewrite growAndMatch_declined.
    + by rewrite askLargerParty_declined.
  - destruct acc.
    + by destruct (executeMatch_untouched env (bidOrder c) (offerOrder c)
                  (with_pendingConfirmations
                     (JsMap.delete key0 (pendingConfirmations (clearTimeout (timeout c) s)))
                     (clearTimeout (timeout c) s))) as (_&->&_).
    + simpl. set_solver.
Qed.

Lemma step_declined_closed e s : declined_closed s → declined_closed (step e s).
Proof.
  intros Hinv. destruct e; simpl.
  - destruct (processMatching_reopens_pending env s) as (Hd&Hp).
    intros key Hk. rewrite Hd in Hk. rewrite Hp by done. by apply Hinv.
  - eapply declined_closed_reopens_nothing; [apply processAsset_reopens_nothing|done].
  - eapply declined_closed_reopens_nothing;
      [apply handleNegotiationResponse_reopens_nothing|done].
  - by apply handleQuantityConfirmationResponse_declined_closed.
  - done.
  - unfold runTimer. destruct (timers s !! h) as [[cb d]|]; [|done].
    destruct cb; [|done].
    by apply handleQuantityConfirmationResponse_declined_closed.
  - done.
Qed.

Lemma step_declined_mono e s key :
  key ∈ declinedPartialFills s → key ∈ declinedPartialFills (step e s).
Proof.
  intros Hk. destruct e; simpl.
  - by destruct (processMatching_reopens_pending env s) as (->&_).
  - by destruct (processAsset_reopens_nothing env a s) as (->&_).
  - by destruct (handleNegotiationResponse_reopens_nothing env a user improved
                   newPrice s) as (->&_).
  - by apply handleQuantityConfirmationResponse_declined_mono.
  - done.
  - unfold runTimer. destruct (timers s !! h) as [[cb d]|]; [|done].
    destruct cb; [|done].
    by apply handleQuantityConfirmationResponse_declined_mono.
  - done.
Qed.

Lemma run_app es1 es2 s : run (es1 ++ es2) s = run es2 (run es1 s).
Proof. unfold run. apply fold_left_app. Qed.

Lemma run_declined_closed es s : declined_closed s → declined_closed (run es s).
Proof.
  revert s. induction es as [|e es IH]; intros s Hinv; [done|].
  simpl. apply IH. by apply step_declined_closed.
Qed.

Lemma run_declined_mono es s key :
  key ∈ declinedPartialFills s → key ∈ declinedPartialFills (run es s).
Proof.
  revert s. induction es as [|e es IH]; intros s Hk; [done|].
  simpl. apply IH. by apply step_declined_mono.
Qed.

Lemma newEngine_declined_closed db : declined_closed (newEngine db).
Proof. intros key Hk. simpl in Hk. set_solver. Qed.

(** C2.  Once a confirmation key is in the declined set of a running engine,
    no later state of the engine has a pending confirmation for it, whatever
    happens afterwards: ticks over any database content, forced per-asset
    passes, responses, timers. *)
Theorem declined_pair_never_reopened (db : gmap string Order)
    (before after : list Event) (key : string) :
  key ∈ declinedPartialFills (run before (newEngine db)) →
  key ∈ declinedPartialFills (run (before ++ after) (newEngine db))
  ∧ JsMap.get key (pendingConfirmations (run (before ++ after) (newEngine db))) = None.
Proof.
  intros Hk. rewrite run_app.
  assert (Hk' := run_declined_mono after _ _ Hk).
  split; [done|].
  apply (run_declined_closed after); [|done].
  apply run_declined_closed, newEngine_declined_closed.
Qed.


(** Both timers run out, and the pair is seen again on a later tick. *)
Lemma declined_pair_never_reopened_witness :
  let before := [Tick (mkEnv 100000 true); TimerFires (mkEnv 160000 true) 0%nat;
                 TimerFires (mkEnv 220000 true) 1%nat] in
  let after := [Tick (mkEnv 225000 true)] in
  "gold:B3:O3" ∈ declinedPartialFills (run (before ++ after) (newEngine db_B3_O3))
  ∧ JsMap.get "gold:B3:O3"
      (pendingConfirmations (run (before ++ after) (newEngine db_B3_O3))) = None.
Proof.
  apply (declined_pair_never_reopened db_B3_O3).
  refine (bool_decide_eq_true_1 _ _). vm_compute. reflexivity.
Defined.

(** ** Trade committer (C1) *)

Lemma matchTransaction_success bid offer db b0 o0 :
  db !! id bid = Some b0 →
  db !! id offer = Some o0 →
  id bid ≠ id offer →
  let amt := Z.min (remaining bid) (remaining offer) in
  matchTransaction bid offer db
  = Some (<[id offer := set_filled (remaining offer - amt) (userId bid) o0]>
            (<[id bid := set_filled (remaining bid - amt) (userId offer) b0]> db),
          tradeOf bid offer, remaining bid - amt, remaining offer - amt).
Proof.
  intros Hb Ho Hne. unfold matchTransaction, order_update. simpl.
  rewrite Hb. rewrite lookup_insert_ne by done. by rewrite Ho.
Qed.

Lemma executeMatch_store_trades env bid offer s :
  dbUp env = true →
  ∀ db trade bR oR,
    matchTransaction bid offer (store s) = Some (db, trade, bR, oR) →
    store (executeMatch env bid offer s) = db
    ∧ trades (executeMatch env bid offer s) = (trades s ++ [trade])%list.
Proof.
  intros Hup db trade bR oR Htx.
  unfold executeMatch, sendTradeExecutedNotification, notifyUserViaWhatsApp.
  rewrite Hup, Htx. simpl. done.
Qed.



(** ** Quantity confirmation controller (C3, C10) *)

(** C3.  A pending confirmation awaits the smaller party, who accepts with a
    new quantity [q]; the database answers and holds both orders, each under
    its id, one a BID and the other an OFFER.  Then the
    smaller side's row gets [amount = remaining = q]; both rows are read back
    from the database so updated; the pending confirmation is removed; and
    the commit runs on the two rows read back: the handler's result is
    [executeMatch] of them, and the trade it adds is computed from them and
    not from the orders kept in the confirmation. *)
Theorem smaller_accepts_commits_reloaded (env : Env) (key : string)
    (c : Confirmation) (q : Z) (s : Engine) (sm lg : Order) :
  dbUp env = true →
  JsMap.get key (pendingConfirmations s) = Some c →
  state c = AWAITING_SMALLER →
  q ≠ 0 →
  store s !! smallerOrderId c = Some sm →
  store s !! id (largerOrderOf c) = Some lg →
  id sm = smallerOrderId c →
  id lg = id (largerOrderOf c) →
  action sm ≠ action lg →
  let db1 := <[smallerOrderId c := set_quantity q sm]> (store s) in
  let s' := handleQuantityConfirmationResponse env key true (Some q) s in
  ∃ updatedBid updatedOffer,
    db1 !! id (bidOrder c) = Some updatedBid
    ∧ db1 !! id (offerOrder c) = Some updatedOffer
    ∧ db1 !! smallerOrderId c = Some (set_quantity q sm)
    ∧ amount (set_quantity q sm) = q ∧ remaining (set_quantity q sm) = q
    ∧ s' = executeMatch env updatedBid updatedOffer
             (with_pendingConfirmations
                (JsMap.delete key (pendingConfirmations s))
                (with_store db1 (clearTimeout (timeout c) s)))
    ∧ JsMap.get key (pendingConfirmations s') = None
    ∧ trades s' = (trades s ++ [tradeOf updatedBid updatedOffer])%list.
Proof.
  intros Hup Hget Hst Hq Hsm Hlg Hism Hilg Hact db1 s'.
  assert (Hne : smallerOrderId c ≠ id (largerOrderOf c)).
  { intros Heq. rewrite Heq in Hsm. congruence. }
  assert (Hlg1 : db1 !! id (largerOrderOf c) = Some lg).
  { unfold db1. by rewrite lookup_insert_ne. }
  assert (Hsm1 : db1 !! smallerOrderId c = Some (set_quantity q sm)).
  { unfold db1. by rewrite lookup_insert_eq. }
  assert (Hs' : ∀ ub uo,
             db1 !! id (bidOrder c) = Some ub →
             db1 !! id (offerOrder c) = Some uo →
             s' = executeMatch env ub uo
                    (with_pendingConfirmations
                       (JsMap.delete key (pendingConfirmations s))
                       (with_store db1 (clearTimeout (timeout c) s)))).
  { intros ub uo Hub Huo. subst s'.
    unfold handleQuantityConfirmationResponse. rewrite Hget, Hst.
    unfold acceptedQuantity. rewrite (proj2 (Z.eqb_neq q 0) Hq).
    unfold growAndMatch. rewrite Hup. simpl.
    unfold order_update.
    change (match smallerParty c with
            | BUYER => id (bidOrder c) | SELLER => id (offerOrder c) end)
      with (smallerOrderId c).
    rewrite Hsm. fold db1. rewrite Hub, Huo. simpl.
    by rewrite JsMapFacts.delete_set_eq. }
  assert (Hcommit : ∀ ub uo,
             db1 !! id (bidOrder c) = Some ub →
             db1 !! id (offerOrder c) = Some uo →
             id ub = id (bidOrder c) → id uo = id (offerOrder c) →
             id (bidOrder c) ≠ id (offerOrder c) →
             JsMap.get key (pendingConfirmations s') = None
             ∧ trades s' = (trades s ++ [tradeOf ub uo])%list).
  { intros ub uo Hub Huo Hib Hio Hdiff. rewrite (Hs' ub uo Hub Huo). split.
    - destruct (executeMatch_untouched env ub uo
                  (with_pendingConfirmations
                     (JsMap.delete key (pendingConfirmations s))
                     (with_store db1 (clearTimeout (timeout c) s)))) as (->&_&_).
      simpl. apply JsMapFacts.get_delete_eq.
    - assert (Htx := matchTransaction_success ub uo db1 ub uo).
      rewrite Hib, Hio in Htx. specialize (Htx Hub Huo Hdiff).
      by destruct (executeMatch_store_trades env ub uo
                  (with_pendingConfirmations
                     (JsMap.delete key (pendingConfirmations s))
                     (with_store db1 (clearTimeout (timeout c) s)))
                  Hup _ _ _ _ Htx) as [_ ->]. }
  unfold smallerOrderId, largerOrderOf in *.
  destruct (smallerParty c).
  - exists (set_quantity q sm), lg.
    destruct (Hcommit (set_quantity q sm) lg) as [Hp Ht]; auto.
    repeat split; auto.
  - exists lg, (set_quantity q sm).
    destruct (Hcommit lg (set_quantity q sm)) as [Hp Ht]; auto.
    repeat split; auto.
Qed.


Lemma smaller_accepts_commits_reloaded_witness :
  let s := run [Tick (mkEnv 100000 true)] (newEngine db_B2_O2) in
  let s' := handleQuantityConfirmationResponse (mkEnv 101000 true) "gold:B2:O2"
              true (Some 7) s in
  JsMap.get "gold:B2:O2" (pendingConfirmations s) = Some confirmation_B2_O2
  ∧ JsMap.get "gold:B2:O2" (pendingConfirmations s') = None
  ∧ map t_amount (trades s') = [7]
  ∧ (amount <$> store s' !! "B2") = Some 7.
Proof.
  intros s s'.
  assert (Hget : JsMap.get "gold:B2:O2" (pendingConfirmations s)
                 = Some confirmation_B2_O2) by (vm_compute; reflexivity).
  destruct (smaller_accepts_commits_reloaded (mkEnv 101000 true) "gold:B2:O2"
              confirmation_B2_O2 7 s order_B2 order_O2)
    as (ub & uo & Hub & Huo & _ & _ & _ & Hs' & Hp & Ht);
    try (vm_compute; reflexivity); try discriminate.
  split; [exact Hget|]. split; [exact Hp|].
  vm_compute. split; reflexivity.
Defined.

(** C10.  A pending confirmation awaits the smaller party, and the response
    says accepted without a new quantity (none, or 0).  No order and no trade
    is written; the confirmation moves to AWAITING_LARGER; the old timer is
    cleared and a new one of 60 seconds is armed for the same key; the larger
    party is sent the partial-fill approval request.  The engine ends up as
    after a decline, the recorded answer of the smaller party apart. *)
Theorem accept_without_quantity_asks_larger (env : Env) (key : string)
    (c : Confirmation) (nq : option Z) (s : Engine) :
  JsMap.get key (pendingConfirmations s) = Some c →
  state c = AWAITING_SMALLER →
  nq = None ∨ nq = Some 0 →
  let s' := handleQuantityConfirmationResponse env key true nq s in
  let declined := handleQuantityConfirmationResponse env key false nq s in
  let h := nextTimer s in
  let c' := await_larger h (set_smallerPartyResponse true c) in
  store s' = store s
  ∧ trades s' = trades s
  ∧ JsMap.get key (pendingConfirmations s') = Some c'
  ∧ state c' = AWAITING_LARGER
  ∧ timers s' = <[h := (ConfirmationTimeout key, 60000)]> (delete (timeout c) (timers s))
  ∧ outbox s'
    = (outbox s
       ++ WsNotifyUser (userId (largerOrderOf c))
            (QuantityPartialFillApproval key (c_asset c) (id (largerOrderOf c))
               (smallerOrderId c) (largerQuantity c) (smallerQuantity c)
               (price (bidOrder c)) (sideOfLarger c))
          :: (if dbUp env
              then [WhatsAppNotify (userId (largerOrderOf c))
                      (WaPartialFillApproval (c_asset c) (price (bidOrder c))
                         (largerQuantity c) (smallerQuantity c)
                         (slice8 (id (largerOrderOf c))))]
              else []))%list
  ∧ s' = with_pendingConfirmations
           (JsMap.set key c' (pendingConfirmations declined)) declined.
Proof.
  intros Hget Hst Hnq s' declined h c'.
  assert (Hacc : acceptedQuantity true nq = None).
  { destruct Hnq as [->| ->]; reflexivity. }
  subst s' declined. unfold handleQuantityConfirmationResponse.
  rewrite Hget, Hst, Hacc. simpl.
  unfold askLargerParty, setTimeout, notifyUserViaWhatsApp,
    largerOrderOf, smallerOrderId, sideOfLarger.
  destruct (dbUp env); simpl; destruct (smallerParty c) eqn:Hsp; simpl;
    rewrite ?Hsp, ?JsMapFacts.get_set_eq, ?JsMapFacts.set_set_eq, <- ?app_assoc; simpl;
    repeat split; reflexivity.
Qed.

(** The third scenario of the spec, with the buyer answering yes and no
    quantity: the seller is asked whether 2 of the 5 lots will do. *)
Lemma accept_without_quantity_asks_larger_witness :
  let s := run [Tick (mkEnv 100000 true)] (newEngine db_B3_O3) in
  let s' := handleQuantityConfirmationResponse (mkEnv 101000 true) "gold:B3:O3"
              true None s in
  trades s' = []
  ∧ (state <$> JsMap.get "gold:B3:O3" (pendingConfirmations s')) = Some AWAITING_LARGER
  ∧ timers s' = {[ 1%nat := (ConfirmationTimeout "gold:B3:O3", 60000) ]}
  ∧ last (outbox s')
    = Some (WhatsAppNotify "u2" (WaPartialFillApproval "gold" 1000 5 2 "O3")).
Proof.
  intros s s'.
  destruct (accept_without_quantity_asks_larger (mkEnv 101000 true) "gold:B3:O3"
              (mkConfirmation "gold:B3:O3" "gold" order_B3 order_O3 BUYER 2 5 3
                 0%nat 100000 AWAITING_SMALLER None) None s)
    as (_ & Ht & Hp & _ & Htm & Ho & _);
    [vm_compute; reflexivity | reflexivity | by left |].
  fold s' in Ht, Hp, Htm, Ho.
  rewrite Ht, Hp, Htm, Ho.
  repeat split; vm_compute; reflexivity.
Defined.

(** ** Matching loop: the active-orders flag (C4) *)

Lemma processMatchingInMemory_redis env orders s :
  redis (processMatchingInMemory env orders s) = redis s.
Proof. by destruct (processMatchingInMemory_reopens_nothing env orders s) as (_&->&_). Qed.

(** With the flag set and the orders of the first scenario matched on the
    first tick, the second tick observes no active order and leaves the flag
    as it was: [true]. *)
Lemma flag_stays_set_without_orders :
  let s := run [Tick (mkEnv 100000 true)] (newEngine db_B1_O1) in
  let env := mkEnv 105000 true in
  observed env s = []
  ∧ redis_get flagKey s = Some (RedisBool true, 300)
  ∧ redis_get flagKey (processMatching env s) = Some (RedisBool true, 300)
  ∧ ¬ flag_follows_count env s.
Proof.
  intros s env.
  assert (H1 : observed env s = []) by (vm_compute; reflexivity).
  assert (H2 : redis_get flagKey (processMatching env s)
               = Some (RedisBool true, 300)) by (vm_compute; reflexivity).
  split; [exact H1|]. split; [vm_compute; reflexivity|]. split; [exact H2|].
  unfold flag_follows_count. rewrite H1, H2. discriminate.
Qed.

(** C4, as the code has it.  Every tick writes the heartbeat and takes the
    snapshot through [getActiveOrders], whatever the flag says.  The flag is
    written only when it was read as missing or false: then it becomes
    whether any active order was observed, with a 300 s expiry.  A flag read
    as set is left as it is.  With no order observed the tick ends there;
    otherwise the orders are matched. *)
Theorem processMatching_flag (env : Env) (s : Engine) :
  let s0 := redis_set lastRunKey (RedisTimestamp (now env)) 600 s in
  let orders := observed env s in
  let s1 := (getActiveOrders env s0).2 in
  let flagWasSet := truthy (redis_get flagKey s) in
  let s2 := if flagWasSet then s1
            else redis_set flagKey (RedisBool (0 <? length orders)%nat) 300 s1 in
  processMatching env s
  = (if (length orders =? 0)%nat then s2
     else processMatchingInMemory env orders s2)
  ∧ redis_get flagKey (processMatching env s)
    = (if flagWasSet then redis_get flagKey s
       else Some (RedisBool (0 <? length orders)%nat, 300)).
Proof.
  intros s0 orders s1 flagWasSet s2.
  assert (Hflag0 : redis_get flagKey s0 = redis_get flagKey s).
  { unfold redis_get, s0. simpl. by rewrite lookup_insert_ne. }
  assert (Hredis1 : redis s1 = redis s0).
  { by destruct (getActiveOrders_untouched env s0) as (_&_&?). }
  assert (Heq : processMatching env s
                = (if (length orders =? 0)%nat then s2
                   else processMatchingInMemory env orders s2)).
  { unfold processMatching. fold s0. rewrite Hflag0. fold flagWasSet.
    subst s2 s1 orders. unfold observed. fold s0.
    destruct (getActiveOrders env s0) as [os t]. simpl.
    destruct flagWasSet; [done|].
    destruct os as [|o os]; simpl; done. }
  split; [exact Heq|].
  rewrite Heq. unfold redis_get.
  assert (Hs2 : redis s2 !! flagKey
                = (if flagWasSet then redis_get flagKey s
                   else Some (RedisBool (0 <? length orders)%nat, 300))).
  { subst s2. destruct flagWasSet eqn:Hf; simpl.
    - rewrite Hredis1. exact Hflag0.
    - by rewrite lookup_insert_eq. }
  destruct (_ =? _)%nat; [exact Hs2|].
  by rewrite processMatchingInMemory_redis.
Qed.

(** ** Per-asset decision on a crossing book (C5) *)

Lemma notifyNegotiation_store_trades env a s :
  store (notifyNegotiation env a s) = store s
  ∧ trades (notifyNegotiation env a s) = trades s.
Proof.
  unfold notifyNegotiation, clearTimeout_opt, setTimeout. by split_tests.
Qed.

Lemma negotiate_store_trades env a b o s :
  store (negotiate env a b o s) = store s
  ∧ trades (negotiate env a b o s) = trades s.
Proof.
  unfold negotiate.
  destruct (negotiationState s !! a) as [st|].
  - destruct (_ || _); [|done].
    match goal with
    | |- context [notifyNegotiation env a ?t] =>
        destruct (notifyNegotiation_store_trades env a t) as [-> ->]
    end.
    unfold clearTimeout_opt. by split_tests.
  - match goal with
    | |- context [notifyNegotiation env a ?t] =>
        by destruct (notifyNegotiation_store_trades env a t) as [-> ->]
    end.
Qed.

(** C5.  What the code does on a crossing book: with the best bid priced
    above the best offer, [processAssetMatching] runs the negotiation branch;
    it commits nothing: no trade is added and no order is written. *)
Theorem crossing_book_enters_negotiation (env : Env) (a : string)
    (orders : list Order) (s : Engine) (b o : Order) :
  bestBidOf orders = Some b →
  bestOfferOf orders = Some o →
  price o < price b →
  processAssetMatching env a orders s = negotiate env a b o s
  ∧ trades (processAssetMatching env a orders s) = trades s
  ∧ store (processAssetMatching env a orders s) = store s.
Proof.
  unfold bestBidOf, bestOfferOf. intros Hb Ho Hlt.
  assert (Heq : processAssetMatching env a orders s = negotiate env a b o s).
  { unfold processAssetMatching.
    destruct (sortBy compareBids _) as [|b' ?]; [done|].
    destruct (sortBy compareOffers _) as [|o' ?]; [done|].
    simpl in Hb, Ho. injection Hb as ->. injection Ho as ->.
    rewrite (proj2 (Z.eqb_neq (price b) (price o))) by lia.
    by rewrite (proj2 (Z.ltb_ge (price b) (price o))) by lia. }
  rewrite Heq. by destruct (negotiate_store_trades env a b o s) as [-> ->].
Qed.

(** A bid at 101.00 and an offer at 100.00, 5 lots each: no trade, and a
    negotiation that asks the offer side to move. *)
Lemma crossing_book_enters_negotiation_witness :
  let s' := processAssetMatching (mkEnv 100000 true) "gold" [order_B5; order_O5]
              (newEngine (<["B5" := order_B5]> (<["O5" := order_O5]> ∅))) in
  trades s' = []
  ∧ (remaining <$> store s' !! "B5") = Some 5
  ∧ (turn <$> negotiationState s' !! "gold") = Some OFFER
  ∧ outbox s' = [WsNotifyUser "u2"
                   (NegotiationYourTurn "gold" 10100 10000 "u1" "u2" OFFER)].
Proof.
  intros s'.
  destruct (crossing_book_enters_negotiation (mkEnv 100000 true) "gold"
              [order_B5; order_O5]
              (newEngine (<["B5" := order_B5]> (<["O5" := order_O5]> ∅)))
              order_B5 order_O5) as (_ & Ht & Hs);
    [reflexivity | reflexivity | simpl; lia |].
  fold s' in Ht, Hs. rewrite Ht, Hs.
  repeat split; vm_compute; reflexivity.
Defined.

(** ** Negotiation responses from the wrong side (C6) *)

Lemma notifyNegotiation_turn env a s st :
  negotiationState s !! a = Some st →
  (turn <$> negotiationState (notifyNegotiation env a s) !! a) = Some (turn st)
  ∧ (bestBid <$> negotiationState (notifyNegotiation env a s) !! a) = Some (bestBid st)
  ∧ (bestOffer <$> negotiationState (notifyNegotiation env a s) !! a) = Some (bestOffer st).
Proof.
  intros Hst. unfold notifyNegotiation, setTimeout. rewrite Hst.
  destruct (dbUp env); simpl; [|by rewrite Hst].
  by rewrite lookup_insert_eq.
Qed.

(** C6.  What the code does with a response from a user whose turn it is
    not: a pass destroys the negotiation and broadcasts the market update; an
    improvement without a price hands the turn to the other side.  The user
    is compared with the side in turn only to choose the order whose price a
    priced improvement writes. *)
Theorem wrong_side_response_not_ignored (env : Env) (a user : string)
    (newPrice : option Z) (s : Engine) (st : Negotiation) :
  negotiationState s !! a = Some st →
  user ≠ turnUser st →
  let passed := handleNegotiationResponse env a user false newPrice s in
  let improved := handleNegotiationResponse env a user true None s in
  negotiationState passed !! a = None
  ∧ outbox passed
    = (outbox s ++ [WsBroadcastMarketUpdate a (price (bestBid st))
                      (price (bestOffer st))])%list
  ∧ (turn <$> negotiationState improved !! a)
    = Some (match turn st with BID => OFFER | OFFER => BID end).
Proof.
  intros Hst _ passed improved. subst passed improved.
  unfold handleNegotiationResponse. rewrite Hst. simpl.
  split; [by rewrite lookup_delete_eq|].
  split.
  - unfold clearTimeout_opt. by destruct (n_timeout st).
  - match goal with
    | |- context [notifyNegotiation env a ?t] =>
        destruct (notifyNegotiation_turn env a t
                    (set_turn (match turn st with BID => OFFER | OFFER => BID end) st))
          as (-> & _)
    end; [|done].
    simpl. by rewrite lookup_insert_eq.
Qed.

(** The fifth scenario of the spec: it is the offer side's turn (user u2),
    and the bidder u1 passes, or a user who has no order at all does. *)
Lemma wrong_side_response_not_ignored_witness :
  let s := run [Tick (mkEnv 100000 true)] (newEngine db_B4_O4) in
  (turnUser <$> negotiationState s !! "gold") = Some "u2"
  ∧ negotiationState
      (handleNegotiationResponse (mkEnv 101000 true) "gold" "u1" false None s)
      !! "gold" = None
  ∧ negotiationState
      (handleNegotiationResponse (mkEnv 101000 true) "gold" "u9" false None s)
      !! "gold" = None
  ∧ (turn <$> negotiationState
                (handleNegotiationResponse (mkEnv 101000 true) "gold" "u1" true None s)
                !! "gold") = Some BID.
Proof.
  intros s.
  assert (Hst : negotiationState s !! "gold"
                = Some (mkNegotiation order_B4 order_O4 OFFER (Some 0%nat)))
    by (vm_compute; reflexivity).
  destruct (wrong_side_response_not_ignored (mkEnv 101000 true) "gold" "u1" None s
              _ Hst) as (H1 & _ & H3); [discriminate|].
  destruct (wrong_side_response_not_ignored (mkEnv 101000 true) "gold" "u9" None s
              _ Hst) as (H4 & _ & _); [discriminate|].
  rewrite Hst. repeat split; assumption.
Defined.

(** ** Snapshot cache (C7) *)

Lemma getActiveOrders_cases env s :
  getActiveOrders env s
  = if cacheValid env s then (lastOrdersCache s, s)
    else if dbUp env
         then (findActiveOrders (store s),
               with_cache (findActiveOrders (store s)) (now env) s)
         else (lastOrdersCache s, s).
Proof. reflexivity. Qed.

(** Along any history the cache holds the vector last fetched, or nothing
    once it was invalidated; and an invalidated cache has no timestamp. *)
Lemma cacheRun_cache ops :
  lastOrdersCache (cacheRun ops).1
  = (if invalidatedSince (cacheRun ops).2 then [] else lastFetched (cacheRun ops).2)
  ∧ (invalidatedSince (cacheRun ops).2 = true → lastCacheTime (cacheRun ops).1 = 0).
Proof.
  unfold cacheRun.
  induction ops as [|op ops IH] using rev_ind; [done|].
  rewrite fold_left_app. simpl.
  destruct (fold_left cacheStep ops _) as [s h]. simpl in IH.
  destruct IH as [IHc IHt].
  destruct op as [env db|]; simpl; [|done].
  rewrite getActiveOrders_cases.
  change (cacheValid env (with_store db s)) with (cacheValid env s).
  destruct (cacheValid env s); simpl; [done|].
  destruct (dbUp env); simpl; done.
Qed.

(** The cache is filled on the first tick; a forced pass over the asset
    invalidates it; the next query fails.  The vector returned is empty; the
    one last fetched held both orders. *)
Lemma failed_query_after_invalidation :
  let ops := [Access (mkEnv 100000 true) db_B3_O3; Invalidate] in
  let env := mkEnv 105000 false in
  lastFetched (cacheRun ops).2 = [order_B3; order_O3]
  ∧ (getActiveOrders env (with_store db_B3_O3 (cacheRun ops).1)).1 = []
  ∧ ¬ failure_returns_last_fetched.
Proof.
  intros ops env.
  assert (H1 : lastFetched (cacheRun ops).2 = [order_B3; order_O3])
    by (vm_compute; reflexivity).
  assert (H2 : (getActiveOrders env (with_store db_B3_O3 (cacheRun ops).1)).1 = [])
    by (vm_compute; reflexivity).
  split; [exact H1|]. split; [exact H2|].
  intros Hclaim.
  specialize (Hclaim ops env db_B3_O3 eq_refl eq_refl).
  rewrite H1, H2 in Hclaim. discriminate.
Qed.

(** The same on the engine itself: tick, forced pass, tick with the
    database down.  The second tick finds an empty cache. *)
Lemma engine_cache_empty_after_processAsset :
  let s := run [Tick (mkEnv 100000 true); ProcessAsset (mkEnv 101000 true) "gold"]
               (newEngine db_B3_O3) in
  lastOrdersCache (run [Tick (mkEnv 100000 true)] (newEngine db_B3_O3))
  = [order_B3; order_O3]
  ∧ observed (mkEnv 105000 false) s = [].
Proof. split; vm_compute; reflexivity. Qed.

(** C7, as the code has it.  After any history of accesses and
    invalidations: inside the validity window [getActiveOrders] returns the
    cached vector, which is the one last fetched, whatever the database holds
    and whether or not it answers; outside it a successful query returns the
    fresh vector; and a failed one returns the cache as it is: the vector
    last fetched if the cache was not invalidated since, the empty vector if
    it was.  A failed query and a hit inside the window leave the engine as
    it was. *)
Theorem getActiveOrders_on_failure (ops : list CacheOp) (env : Env)
    (db : gmap string Order) :
  let s := with_store db (cacheRun ops).1 in
  let h := (cacheRun ops).2 in
  (getActiveOrders env s).1
  = (if cacheValid env s then lastFetched h
     else if dbUp env then findActiveOrders db
     else if invalidatedSince h then [] else lastFetched h)
  ∧ (if cacheValid env s || negb (dbUp env)
     then (getActiveOrders env s).1 = lastOrdersCache s
          ∧ (getActiveOrders env s).2 = s
     else lastOrdersCache (getActiveOrders env s).2 = findActiveOrders db
          ∧ lastCacheTime (getActiveOrders env s).2 = now env).
Proof.
  intros s h. rewrite getActiveOrders_cases.
  destruct (cacheRun_cache ops) as [Hc Ht]. fold h in Hc, Ht.
  change (lastOrdersCache (cacheRun ops).1) with (lastOrdersCache s) in Hc.
  change (lastCacheTime (cacheRun ops).1) with (lastCacheTime s) in Ht.
  destruct (cacheValid env s) eqn:Hvalid.
  - assert (Hfresh : lastOrdersCache s = lastFetched h).
    { rewrite Hc. destruct (invalidatedSince h); [|done].
      unfold cacheValid in Hvalid. rewrite Ht in Hvalid by done. discriminate. }
    split; [exact Hfresh | done].
  - destruct (dbUp env); simpl; [done|]. split; [exact Hc | done].
Qed.

(** ** The lookup of a user's pending confirmations (C8) *)

(** C8.  What the code returns once the smaller party has declined: the
    confirmation awaits the larger party (the seller u2, who was sent the
    approval request), and it is still listed for the smaller party (the
    buyer u1) and not for u2. *)
Theorem lookup_lists_smaller_party_when_awaiting_larger :
  let s := run [Tick (mkEnv 100000 true);
                QuantityConfirmationResponse (mkEnv 101000 true) "gold:B3:O3"
                  false None]
               (newEngine db_B3_O3) in
  (awaitedUser <$> JsMap.get "gold:B3:O3" (pendingConfirmations s)) = Some "u2"
  ∧ (state <$> JsMap.get "gold:B3:O3" (pendingConfirmations s)) = Some AWAITING_LARGER
  ∧ getUserPendingConfirmations "u2" s = []
  ∧ getUserPendingConfirmations "u1" s
    = [("gold:B3:O3", mkDetails "gold" 2 5 3 BUYER)]
  ∧ ¬ lists_awaited "u2" s.
Proof.
  intros s.
  assert (Hget : JsMap.get "gold:B3:O3" (pendingConfirmations s)
                 = Some (mkConfirmation "gold:B3:O3" "gold" order_B3 order_O3
                           BUYER 2 5 3 1%nat 100000 AWAITING_LARGER (Some false)))
    by (vm_compute; reflexivity).
  assert (Hu2 : getUserPendingConfirmations "u2" s = [])
    by (vm_compute; reflexivity).
  rewrite Hget, Hu2.
  split; [reflexivity|]. split; [reflexivity|]. split; [reflexivity|].
  split; [vm_compute; reflexivity|].
  intros Hclaim. specialize (Hclaim _ _ Hget). rewrite Hu2 in Hclaim.
  destruct Hclaim as [_ Hback]. specialize (Hback eq_refl).
  by apply elem_of_nil in Hback.
Qed.

(** Whatever the state of the confirmation, the lookup lists it for the
    user of the smaller side's order. *)
Lemma getUserPendingConfirmations_smaller user s key c :
  (key, c) ∈ pendingConfirmations s →
  userId (match smallerParty c with
          | BUYER => bidOrder c | SELLER => offerOrder c end) = user →
  key ∈ (getUserPendingConfirmations user s).*1.
Proof.
  intros Hin Huser. unfold getUserPendingConfirmations.
  apply list_elem_of_fmap. eexists (key, _). split; [reflexivity|].
  apply list_elem_of_fmap. exists (key, c). split; [reflexivity|].
  apply list_elem_of_In, filter_In. split; [by apply list_elem_of_In|].
  unfold isUserInvolved. simpl.
  destruct (smallerParty c); simpl; subst user; rewrite String.eqb_refl;
    by rewrite ?orb_true_r.
Qed.

(** ** Commission (C9) *)

(** The commissions of the scenarios of the spec. *)
Lemma commission_scenarios :
  calculateCommission (Z2float 5) (Number_price 10000) = Number_price 50
  ∧ calculateCommission (Z2float 7) (Number_price 5000) = Number_price 35
  ∧ calculateCommission (Z2float 2) (Number_price 1000) = Number_price 2
  ∧ calculateCommission (Z2float 1) (Number_price 950) = Number_price 1.
Proof. repeat split; vm_compute; reflexivity. Qed.

(** C9.  5 lots at 207.00: amount * price * 0.001 is exactly 1.035, which
    rounds to 1.04; the doubles of the code give 103.49999999999999 before
    [Math.round], and the commission is 1.03. *)
Theorem commission_tie_rounds_down :
  PrimFloat.mul
    (PrimFloat.mul (PrimFloat.mul (Z2float 5) (Number_price 20700)) lit_0_001)
    (Z2float 100)
  = 0x1.9dfffffffffffp+6%float
  ∧ calculateCommission (Z2float 5) (Number_price 20700) = Number_price 103
  ∧ exactCommissionCents 5 20700 = 104.
Proof. repeat split; vm_compute; reflexivity. Qed.

(** ** The scenarios of the spec, run on the engine *)

(** Exact match: one trade of 5 lots at 100.00 with commission 0.50, both
    orders matched. *)
Lemma scenario_exact_match :
  let s := run [Tick (mkEnv 100000 true)] (newEngine db_B1_O1) in
  trades s = [mkTrade "gold" 10000 5 "B1" "O1" (Number_price 50) "u1" "u2"]
  ∧ store s !! "B1" = Some (set_filled 0 "u2" order_B1)
  ∧ store s !! "O1" = Some (set_filled 0 "u1" order_O1).
Proof. repeat split; vm_compute; reflexivity. Qed.

(** The smaller party declines and the larger accepts: a trade of 2 lots,
    the offer keeps 3 and stays active. *)
Lemma scenario_partial_fill :
  let s := run [Tick (mkEnv 100000 true);
                QuantityConfirmationResponse (mkEnv 101000 true) "gold:B3:O3" false None;
                QuantityConfirmationResponse (mkEnv 102000 true) "gold:B3:O3" true None]
               (newEngine db_B3_O3) in
  map t_amount (trades s) = [2]
  ∧ store s !! "B3" = Some (set_filled 0 "u2" order_B3)
  ∧ store s !! "O3" = Some (set_filled 3 "u1" order_O3)
  ∧ pendingConfirmations s = [].
Proof. repeat split; vm_compute; reflexivity. Qed.

(** The offer side passes: the market update goes out, the negotiation is
    gone, no trade. *)
Lemma scenario_negotiation_pass :
  let s := run [Tick (mkEnv 100000 true);
                NegotiationResponse (mkEnv 101000 true) "gold" "u2" false None]
               (newEngine db_B4_O4) in
  trades s = []
  ∧ negotiationState s !! "gold" = None
  ∧ last (outbox s) = Some (WsBroadcastMarketUpdate "gold" 950 1000).
Proof. repeat split; vm_compute; reflexivity. Qed.

(** * Further properties of the engine *)

(** ** Sorting *)

Section Sorting.
Context {A : Type} (cmp : A → A → Z).

Lemma insertBy_Permutation x l : insertBy cmp x l ≡ₚ x :: l.
Proof.
  induction l as [|y r IH]; simpl; [done|].
  destruct (cmp x y <=? 0); [done|].
  rewrite IH. apply Permutation_swap.
Qed.

Lemma sortBy_Permutation l : sortBy cmp l ≡ₚ l.
Proof.
  induction l as [|x r IH]; simpl; [done|].
  unfold sortBy in *. simpl. by rewrite insertBy_Permutation, IH.
Qed.

Lemma sortBy_elem_of x l : x ∈ sortBy cmp l ↔ x ∈ l.
Proof. by rewrite sortBy_Permutation. Qed.

Lemma sortBy_length l : length (sortBy cmp l) = length l.
Proof. by rewrite sortBy_Permutation. Qed.

Lemma sortBy_nil_inv l : sortBy cmp l = [] → l = [].
Proof.
  intros H. apply Permutation_nil_r. by rewrite <- (sortBy_Permutation l), H.
Qed.

(** With a comparator that compares any two elements one way or the other,
    consistently, the result is in order: every element comes no later than
    all that follow it. *)
Hypothesis cmp_total : ∀ a b, before cmp a b ∨ before cmp b a.
Hypothesis cmp_trans : ∀ a b c, before cmp a b → before cmp b c → before cmp a c.

Lemma insertBy_sorted x l :
  StronglySorted (before cmp) l → StronglySorted (before cmp) (insertBy cmp x l).
Proof.
  induction 1 as [|y r Hr IH Hy]; simpl.
  - repeat constructor.
  - destruct (Z.leb_spec (cmp x y) 0) as [Hle|Hgt].
    + constructor; [by constructor|].
      constructor; [done|].
      eapply Forall_impl; [exact Hy|]. intros z Hz. by eapply cmp_trans.
    + constructor; [done|].
      assert (Hyx : before cmp y x).
      { destruct (cmp_total x y) as [H|H]; [unfold before in H; lia | done]. }
      rewrite insertBy_Permutation. by constructor.
Qed.

Lemma sortBy_sorted l : StronglySorted (before cmp) (sortBy cmp l).
Proof.
  induction l as [|x r IH]; [constructor|].
  unfold sortBy in *. simpl. by apply insertBy_sorted.
Qed.

Lemma sortBy_head_first l x :
  head (sortBy cmp l) = Some x → x ∈ l ∧ ∀ y, y ∈ l → before cmp x y.
Proof.
  intros Hhd. pose proof (sortBy_sorted l) as Hs.
  pose proof (sortBy_Permutation l) as Hp.
  destruct (sortBy cmp l) as [|x' r]; [done|]. injection Hhd as ->.
  split.
  - rewrite <- Hp. by left.
  - intros y Hy. rewrite <- Hp in Hy.
    apply StronglySorted_inv in Hs as [_ Hall].
    apply elem_of_cons in Hy as [->|Hy].
    + destruct (cmp_total x x); done.
    + by eapply Forall_forall in Hall.
Qed.

End Sorting.

Lemma compareBids_before a b :
  before compareBids a b
  ↔ price b < price a ∨ (price a = price b ∧ createdAt a ≤ createdAt b).
Proof.
  unfold before, compareBids.
  destruct (Z.eqb_spec (price b - price a) 0); lia.
Qed.

Lemma compareOffers_before a b :
  before compareOffers a b
  ↔ price a < price b ∨ (price a = price b ∧ createdAt a ≤ createdAt b).
Proof.
  unfold before, compareOffers.
  destruct (Z.eqb_spec (price a - price b) 0); lia.
Qed.

Lemma elem_of_filter_bool {A} (f : A → bool) (x : A) (l : list A) :
  x ∈ List.filter f l ↔ x ∈ l ∧ f x = true.
Proof. rewrite !list_elem_of_In. apply filter_In. Qed.

(** ** Best bid and best offer (processAssetMatching) *)

(** X1.  The order taken as best bid is a BID of the list with the highest
    price and, among the bids at that price, the earliest [createdAt]; there
    is one exactly when the list has a BID. *)
Theorem bestBidOf_highest_earliest (orders : list Order) :
  match bestBidOf orders with
  | Some b =>
      b ∈ orders ∧ action b = BID
      ∧ ∀ o, o ∈ orders → action o = BID →
          price o < price b ∨ (price o = price b ∧ createdAt b ≤ createdAt o)
  | None => ∀ o, o ∈ orders → action o ≠ BID
  end.
Proof.
  unfold bestBidOf.
  set (bids := List.filter (λ o, bool_decide (action o = BID)) orders).
  destruct (head (sortBy compareBids bids)) as [b|] eqn:Hhd.
  - apply sortBy_head_first in Hhd as [Hin Hmin].
    + apply elem_of_filter_bool in Hin as [Hin Hb].
      apply bool_decide_eq_true in Hb.
      split; [done|]. split; [done|].
      intros o Ho Hact.
      assert (H : before compareBids b o).
      { apply Hmin, elem_of_filter_bool.
        split; [done | by apply bool_decide_eq_true]. }
      apply compareBids_before in H. lia.
    + intros x y. rewrite !compareBids_before. lia.
    + intros x y z. rewrite !compareBids_before. lia.
  - intros o Ho Hact.
    assert (Hnil : sortBy compareBids bids = []).
    { by destruct (sortBy compareBids bids). }
    apply sortBy_nil_inv in Hnil.
    assert (Hob : o ∈ bids).
    { apply elem_of_filter_bool. split; [done | by apply bool_decide_eq_true]. }
    rewrite Hnil in Hob. by apply elem_of_nil in Hob.
Qed.

(** X2.  The order taken as best offer is an OFFER of the list with the
    lowest price and, among the offers at that price, the earliest
    [createdAt]; there is one exactly when the list has an OFFER. *)
Theorem bestOfferOf_lowest_earliest (orders : list Order) :
  match bestOfferOf orders with
  | Some b =>
      b ∈ orders ∧ action b = OFFER
      ∧ ∀ o, o ∈ orders → action o = OFFER →
          price b < price o ∨ (price o = price b ∧ createdAt b ≤ createdAt o)
  | None => ∀ o, o ∈ orders → action o ≠ OFFER
  end.
Proof.
  unfold bestOfferOf.
  set (offers := List.filter (λ o, bool_decide (action o = OFFER)) orders).
  destruct (head (sortBy compareOffers offers)) as [b|] eqn:Hhd.
  - apply sortBy_head_first in Hhd as [Hin Hmin].
    + apply elem_of_filter_bool in Hin as [Hin Hb].
      apply bool_decide_eq_true in Hb.
      split; [done|]. split; [done|].
      intros o Ho Hact.
      assert (H : before compareOffers b o).
      { apply Hmin, elem_of_filter_bool.
        split; [done | by apply bool_decide_eq_true]. }
      apply compareOffers_before in H. lia.
    + intros x y. rewrite !compareOffers_before. lia.
    + intros x y z. rewrite !compareOffers_before. lia.
  - intros o Ho Hact.
    assert (Hnil : sortBy compareOffers offers = []).
    { by destruct (sortBy compareOffers offers). }
    apply sortBy_nil_inv in Hnil.
    assert (Hob : o ∈ offers).
    { apply elem_of_filter_bool. split; [done | by apply bool_decide_eq_true]. }
    rewrite Hnil in Hob. by apply elem_of_nil in Hob.
Qed.

(** [processAssetMatching] through the best bid and the best offer. *)
Lemma processAssetMatching_best env a orders s :
  processAssetMatching env a orders s
  = match bestBidOf orders, bestOfferOf orders with
    | Some b, Some o => decide_pair env a b o s
    | _, _ => s
    end.
Proof.
  unfold processAssetMatching, bestBidOf, bestOfferOf, decide_pair.
  destruct (sortBy compareBids _) as [|b ?]; [done|].
  destruct (sortBy compareOffers _) as [|o ?]; [done|]. simpl.
  destruct (price b =? price o); [done|]. by destruct (price b <? price o).
Qed.

Lemma filter_bool_nil {A} (f : A → bool) (l : list A) :
  (∀ x, x ∈ l → f x = false) → List.filter f l = [].
Proof.
  intros H. induction l as [|x r IH]; simpl; [done|].
  rewrite (H x) by left. apply IH. intros y Hy. apply H. by right.
Qed.

Lemma bestBidOf_elem orders b :
  bestBidOf orders = Some b → b ∈ orders ∧ action b = BID.
Proof.
  unfold bestBidOf. intros Hhd.
  assert (Hin : b ∈ sortBy compareBids
                      (List.filter (λ o, bool_decide (action o = BID)) orders)).
  { destruct (sortBy _ _); [done|]. injection Hhd as ->. by left. }
  apply sortBy_elem_of, elem_of_filter_bool in Hin as [? Hb].
  by apply bool_decide_eq_true in Hb.
Qed.

Lemma bestOfferOf_elem orders o :
  bestOfferOf orders = Some o → o ∈ orders ∧ action o = OFFER.
Proof.
  unfold bestOfferOf. intros Hhd.
  assert (Hin : o ∈ sortBy compareOffers
                      (List.filter (λ o, bool_decide (action o = OFFER)) orders)).
  { destruct (sortBy _ _); [done|]. injection Hhd as ->. by left. }
  apply sortBy_elem_of, elem_of_filter_bool in Hin as [? Hb].
  by apply bool_decide_eq_true in Hb.
Qed.

(** X3.  A list of orders that are all bids, or all offers (the empty list
    is both), leaves the engine exactly as it was: nothing is sent, stored or
    armed. *)
Theorem one_sided_book_unchanged (env : Env) (a : string) (orders : list Order)
    (s : Engine) :
  (∀ o, o ∈ orders → action o = BID) ∨ (∀ o, o ∈ orders → action o = OFFER) →
  processAssetMatching env a orders s = s.
Proof.
  intros Hside. rewrite processAssetMatching_best.
  destruct Hside as [Hbids|Hoffers].
  - destruct (bestOfferOf orders) as [o|] eqn:Ho; [|by destruct (bestBidOf orders)].
    apply bestOfferOf_elem in Ho as [Hin Hact].
    apply Hbids in Hin. congruence.
  - destruct (bestBidOf orders) as [b|] eqn:Hb; [|done].
    apply bestBidOf_elem in Hb as [Hin Hact].
    apply Hoffers in Hin. congruence.
Qed.

Lemma one_sided_book_unchanged_witness :
  processAssetMatching (mkEnv 100000 true) "gold" [order_B3; order_B2]
    (newEngine db_B3_O3)
  = newEngine db_B3_O3.
Proof.
  apply one_sided_book_unchanged. left. intros o Ho.
  apply elem_of_cons in Ho as [->|Ho]; [reflexivity|].
  apply elem_of_cons in Ho as [->|Ho]; [reflexivity|].
  by apply elem_of_nil in Ho.
Defined.

(** X4.  Best bid and best offer at the same price and for the same
    quantity, both as the database has them: the pass commits at once.  One
    trade is added, for the whole quantity at that price; both rows end with
    nothing remaining, matched, status MATCHED, each with the other's user
    as counterparty; no confirmation is opened. *)
Theorem exact_match_commits_in_full (env : Env) (a : string) (orders : list Order)
    (s : Engine) (b o : Order) :
  dbUp env = true →
  bestBidOf orders = Some b →
  bestOfferOf orders = Some o →
  store s !! id b = Some b →
  store s !! id o = Some o →
  price b = price o →
  remaining b = remaining o →
  let s' := processAssetMatching env a orders s in
  trades s' = (trades s ++ [tradeOf b o])%list
  ∧ t_amount (tradeOf b o) = remaining b
  ∧ t_price (tradeOf b o) = price b
  ∧ store s' !! id b = Some (set_filled 0 (userId o) b)
  ∧ store s' !! id o = Some (set_filled 0 (userId b) o)
  ∧ status (set_filled 0 (userId o) b) = MATCHED
  ∧ status (set_filled 0 (userId b) o) = MATCHED
  ∧ pendingConfirmations s' = pendingConfirmations s.
Proof.
  intros Hup Hb Ho Hsb Hso Hprice Hrem s'. subst s'.
  rewrite processAssetMatching_best, Hb, Ho. unfold decide_pair.
  rewrite (proj2 (Z.eqb_eq _ _) Hprice), (proj2 (Z.eqb_eq _ _) Hrem). simpl.
  apply bestBidOf_elem in Hb as [_ Hab]. apply bestOfferOf_elem in Ho as [_ Hao].
  assert (Hne : id b ≠ id o).
  { intros Heq. rewrite Heq in Hsb. congruence. }
  pose proof (matchTransaction_success b o (store s) b o Hsb Hso Hne) as Htx.
  simpl in Htx.
  destruct (executeMatch_store_trades env b o s Hup _ _ _ _ Htx) as [Hst Htr].
  destruct (executeMatch_untouched env b o s) as (Hp & _ & _).
  rewrite Hst, Htr, Hp.
  assert (Hmin : Z.min (remaining b) (remaining o) = remaining b) by lia.
  assert (Hb0 : remaining b - Z.min (remaining b) (remaining o) = 0) by lia.
  assert (Ho0 : remaining o - Z.min (remaining b) (remaining o) = 0) by lia.
  rewrite Hb0, Ho0.
  split; [done|]. split; [exact Hmin|]. split; [by simpl|].
  split; [by rewrite lookup_insert_ne, lookup_insert_eq|].
  split; [by rewrite lookup_insert_eq|]. done.
Qed.

(** The first scenario of the spec. *)
Lemma exact_match_commits_in_full_witness :
  let s' := processAssetMatching (mkEnv 100000 true) "gold" [order_B1; order_O1]
              (newEngine db_B1_O1) in
  map t_amount (trades s') = [5]
  ∧ (status <$> store s' !! "B1") = Some MATCHED
  ∧ (status <$> store s' !! "O1") = Some MATCHED
  ∧ pendingConfirmations s' = [].
Proof.
  intros s'.
  destruct (exact_match_commits_in_full (mkEnv 100000 true) "gold"
              [order_B1; order_O1] (newEngine db_B1_O1) order_B1 order_O1)
    as (Ht & _ & _ & Hb & Ho & _ & _ & Hp); try reflexivity.
  fold s' in Ht, Hb, Ho, Hp. simpl in Hb, Ho.
  rewrite Ht, Hb, Ho, Hp. repeat split; reflexivity.
Defined.

(** ** The pending confirmations of a running engine *)

Section JsMapKeys.
Context {V : Type}.
Implicit Types (k : string) (v : V) (m : list (string * V)).

Lemma get_None_keys k m : JsMap.get k m = None ↔ k ∉ m.*1.
Proof.
  induction m as [|[k' v'] r IH]; simpl.
  - split; [intros _; apply not_elem_of_nil | done].
  - rewrite not_elem_of_cons.
    destruct (String.eqb_spec k k') as [->|Hne]; [|tauto].
    split; [done | intros [? _]; done].
Qed.



Lemma keys_set k v m :
  (JsMap.set k v m).*1 = if JsMap.has k m then m.*1 else (m.*1 ++ [k])%list.
Proof.
  unfold JsMap.has.
  induction m as [|[k' v'] r IH]; simpl; [done|].
  destruct (String.eqb_spec k k') as [->|Hne]; simpl; [done|].
  change (list_fmap _ _ fst ?l) with (l.*1). rewrite IH.
  by destruct (JsMap.get k r).
Qed.

Lemma keys_delete k m : (JsMap.delete k m).*1 ⊆ m.*1.
Proof.
  induction m as [|[k' v'] r IH]; simpl; [done|].
  destruct (String.eqb k k'); simpl.
  - intros x Hx. right. by apply IH.
  - intros x Hx. apply elem_of_cons in Hx as [->|Hx]; [by left|].
    right. by apply IH.
Qed.

Lemma NoDup_keys_set k v m : NoDup m.*1 → NoDup (JsMap.set k v m).*1.
Proof.
  intros Hnd. rewrite keys_set. unfold JsMap.has.
  destruct (JsMap.get k m) eqn:Hget; [done|].
  apply get_None_keys in Hget.
  apply NoDup_app. split; [done|].
  split; [|apply NoDup_singleton].
  intros x Hx Hx'. apply list_elem_of_singleton in Hx' as ->. done.
Qed.

Lemma NoDup_keys_delete k m : NoDup m.*1 → NoDup (JsMap.delete k m).*1.
Proof.
  induction m as [|[k' v'] r IH]; simpl; [done|].
  intros Hnd. apply NoDup_cons in Hnd as [Hk' Hnd].
  destruct (String.eqb k k'); simpl; [by apply IH|].
  apply NoDup_cons. split; [|by apply IH].
  intros Hin. apply Hk'. by eapply keys_delete.
Qed.

Lemma get_set k k' v m :
  JsMap.get k (JsMap.set k' v m) = if String.eqb k k' then Some v else JsMap.get k m.
Proof.
  destruct (String.eqb_spec k k') as [->|Hne].
  - apply JsMapFacts.get_set_eq.
  - by apply JsMapFacts.get_set_ne.
Qed.

Lemma get_delete k k' m :
  JsMap.get k (JsMap.delete k' m) = if String.eqb k k' then None else JsMap.get k m.
Proof.
  destruct (String.eqb_spec k k') as [->|Hne].
  - apply JsMapFacts.get_delete_eq.
  - by apply JsMapFacts.get_delete_ne.
Qed.

End JsMapKeys.

Lemma entries_ok_set key c m :
  entries_ok m → confirmation_ok key c → entries_ok (JsMap.set key c m).
Proof.
  intros [Hnd Hall] Hc. split; [by apply NoDup_keys_set|].
  intros k c'. rewrite get_set.
  destruct (String.eqb_spec k key) as [->|Hne]; [by intros [= <-] | apply Hall].
Qed.

Lemma entries_ok_delete key m : entries_ok m → entries_ok (JsMap.delete key m).
Proof.
  intros [Hnd Hall]. split; [by apply NoDup_keys_delete|].
  intros k c'. rewrite get_delete.
  destruct (String.eqb k key); [done | apply Hall].
Qed.

Lemma confirmation_ok_response key c r :
  confirmation_ok key c → confirmation_ok key (set_smallerPartyResponse r c).
Proof. intros []. by constructor. Qed.

Lemma confirmation_ok_await key c h :
  confirmation_ok key c → confirmation_ok key (await_larger h c).
Proof. intros []. by constructor. Qed.

Lemma untouched_pending_ok s s' : untouched s s' → pending_ok s → pending_ok s'.
Proof. intros (Hp & _ & _). unfold pending_ok. by rewrite Hp. Qed.

Lemma requestQuantityConfirmation_pending_ok env a b o s :
  action b = BID → action o = OFFER → price b = price o →
  remaining b ≠ remaining o →
  pending_ok s → pending_ok (requestQuantityConfirmation env a b o s).
Proof.
  intros Hb Ho Hprice Hrem Hok. unfold requestQuantityConfirmation.
  destruct (JsMap.has _ _); [done|].
  case_bool_decide; [done|].
  unfold setTimeout, notifyUserViaWhatsApp, pending_ok.
  assert (Hnew : ∀ h t,
             confirmation_ok (confirmationKeyOf a b o)
               (mkConfirmation (confirmationKeyOf a b o) a b o
                  (if remaining b <? remaining o then BUYER else SELLER)
                  (Z.min (remaining b) (remaining o))
                  (Z.max (remaining b) (remaining o))
                  (Z.max (remaining b) (remaining o)
                   - Z.min (remaining b) (remaining o))
                  h t AWAITING_SMALLER None)).
  { intros h t. constructor; simpl; try done. lia. }
  destruct (dbUp env); simpl; by apply entries_ok_set.
Qed.

Lemma processAssetMatching_pending_ok env a orders s :
  pending_ok s → pending_ok (processAssetMatching env a orders s).
Proof.
  intros Hok. rewrite processAssetMatching_best.
  destruct (bestBidOf orders) as [b|] eqn:Hb; [|done].
  destruct (bestOfferOf orders) as [o|] eqn:Ho; [|done].
  apply bestBidOf_elem in Hb as [_ Hb]. apply bestOfferOf_elem in Ho as [_ Ho].
  unfold decide_pair.
  destruct (Z.eqb_spec (price b) (price o)) as [Hprice|_].
  - destruct (Z.eqb_spec (remaining b) (remaining o)) as [_|Hrem]; simpl.
    + eapply untouched_pending_ok; [apply executeMatch_untouched | done].
    + by apply requestQuantityConfirmation_pending_ok.
  - eapply untouched_pending_ok; [apply negotiate_untouched|].
    destruct (_ <? _); [|done].
    eapply untouched_pending_ok; [apply sendCompetitiveBiddingAlerts_untouched | done].
Qed.

Lemma processMatchingInMemory_pending_ok env orders s :
  pending_ok s → pending_ok (processMatchingInMemory env orders s).
Proof.
  unfold processMatchingInMemory.
  generalize (sortBy byCountDesc (groupByAsset orders)). intros l.
  revert s. induction l as [|e l IH]; intros s Hok; simpl; [done|].
  by apply IH, processAssetMatching_pending_ok.
Qed.

Lemma processMatching_pending_ok env s :
  pending_ok s → pending_ok (processMatching env s).
Proof.
  intros Hok. unfold processMatching.
  set (s0 := redis_set lastRunKey _ 600 s).
  assert (Hok0 : pending_ok s0) by done.
  pose proof (untouched_pending_ok _ _ (getActiveOrders_untouched env s0) Hok0) as Hok1.
  destruct (getActiveOrders env s0) as [orders s1]. simpl in Hok1.
  destruct (truthy _).
  - destruct (_ =? _)%nat; [done | by apply processMatchingInMemory_pending_ok].
  - destruct (_ <? _)%nat; [|done].
    destruct (_ =? _)%nat; [done | by apply processMatchingInMemory_pending_ok].
Qed.

Lemma processAsset_pending_ok env a s :
  pending_ok s → pending_ok (processAsset env a s).
Proof.
  intros Hok. unfold processAsset.
  destruct (negb _); [done|]. destruct (_ <? _)%nat; [done|].
  by apply (processAssetMatching_pending_ok env a
              (findActiveOrdersForAsset a (store s)) s) in Hok.
Qed.

Lemma handleNegotiationResponse_pending_ok env a user improved newPrice s :
  pending_ok s → pending_ok (handleNegotiationResponse env a user improved newPrice s).
Proof.
  intros Hok. unfold handleNegotiationResponse.
  destruct (negotiationState s !! a) as [st|]; [|done].
  assert (Hok1 : pending_ok (clearTimeout_opt (n_timeout st) s)).
  { unfold clearTimeout_opt. by destruct (n_timeout st). }
  destruct improved; [destruct newPrice as [p|]|].
  - match goal with
    | |- context [match ?u with Some _ => _ | None => _ end] =>
        destruct u as [db|]
    end; [|done].
    pose proof (getActiveOrders_untouched env
                  (with_store db (clearTimeout_opt (n_timeout st) s))) as Hun.
    destruct (getActiveOrders env _) as [orders s1]. simpl in Hun.
    apply processAssetMatching_pending_ok.
    eapply untouched_pending_ok; [exact Hun | done].
  - eapply untouched_pending_ok; [apply notifyNegotiation_untouched | done].
  - done.
Qed.

Lemma handleQuantityConfirmationResponse_pending_ok env key acc nq s :
  pending_ok s → pending_ok (handleQuantityConfirmationResponse env key acc nq s).
Proof.
  intros Hok. unfold handleQuantityConfirmationResponse.
  destruct (JsMap.get key (pendingConfirmations s)) as [c|] eqn:Hget; [|done].
  assert (Hc : confirmation_ok key c) by (by apply Hok).
  destruct (state c).
  - assert (Hok1 : entries_ok (JsMap.set key (set_smallerPartyResponse acc c)
                                 (pendingConfirmations s))).
    { apply entries_ok_set; [done | by apply confirmation_ok_response]. }
    destruct (acceptedQuantity acc nq) as [q|].
    + unfold growAndMatch. destruct (negb _); [done|].
      destruct (order_update _ _ _) as [db|]; [|done].
      destruct (db !! _) as [ub|]; [|done]. destruct (db !! _) as [uo|]; [|done].
      eapply untouched_pending_ok; [apply executeMatch_untouched|].
      by apply entries_ok_delete.
    + unfold askLargerParty, setTimeout, notifyUserViaWhatsApp, pending_ok.
      destruct (dbUp env); simpl;
        (apply entries_ok_set;
         [done | by apply confirmation_ok_await, confirmation_ok_response]).
  - assert (Hok1 : entries_ok (JsMap.delete key (pendingConfirmations s))).
    { by apply entries_ok_delete. }
    destruct acc; [|done].
    eapply untouched_pending_ok; [apply executeMatch_untouched | done].
Qed.

Lemma step_pending_ok e s : pending_ok s → pending_ok (step e s).
Proof.
  intros Hok. destruct e; simpl.
  - by apply processMatching_pending_ok.
  - by apply processAsset_pending_ok.
  - by apply handleNegotiationResponse_pending_ok.
  - by apply handleQuantityConfirmationResponse_pending_ok.
  - done.
  - unfold runTimer. destruct (timers s !! h) as [[cb d]|]; [|done].
    destruct cb; [|done].
    by apply handleQuantityConfirmationResponse_pending_ok.
  - done.
Qed.

Lemma run_pending_ok es s : pending_ok s → pending_ok (run es s).
Proof.
  revert s. induction es as [|e es IH]; intros s Hok; [done|].
  simpl. by apply IH, step_pending_ok.
Qed.

Lemma newEngine_pending_ok db : pending_ok (newEngine db).
Proof. split; [constructor | done]. Qed.

(** X5.  In every state a running engine can reach, each pending
    confirmation is filed under its own key, the key is
    [asset:bidOrderId:offerOrderId], its bid is a BID and its offer an OFFER
    at the same price, and its figures are those of the two orders: the
    smaller and the larger of the two [remaining], their difference as the
    additional quantity, which is positive, and as smaller party the side
    with fewer lots. *)
Theorem pending_confirmations_well_formed (db : gmap string Order)
    (es : list Event) (key : string) (c : Confirmation) :
  JsMap.get key (pendingConfirmations (run es (newEngine db))) = Some c →
  confirmation_ok key c.
Proof.
  intros Hget.
  by apply (run_pending_ok es (newEngine db) (newEngine_pending_ok db)).
Qed.

Lemma pending_confirmations_well_formed_witness :
  confirmation_ok "gold:B2:O2" confirmation_B2_O2.
Proof.
  apply (pending_confirmations_well_formed db_B2_O2 [Tick (mkEnv 100000 true)]).
  vm_compute. reflexivity.
Defined.


(** ** What the engine writes to the database *)

Lemma same_identity_refl o : same_identity o o.
Proof. by repeat split. Qed.

Lemma same_identity_trans o1 o2 o3 :
  same_identity o1 o2 → same_identity o2 o3 → same_identity o1 o3.
Proof. intros (?&?&?&?&?) (?&?&?&?&?). repeat split; congruence. Qed.

Lemma same_terms_refl o : same_terms o o.
Proof. by repeat split. Qed.

Lemma same_terms_trans o1 o2 o3 :
  same_terms o1 o2 → same_terms o2 o3 → same_terms o1 o3.
Proof.
  intros (?&?&?) (?&?&?).
  split; [by eapply same_identity_trans | split; congruence].
Qed.

Lemma same_terms_identity o o' : same_terms o o' → same_identity o o'.
Proof. by intros [? _]. Qed.

Section Rows.
Context (R : Order → Order → Prop).
Hypothesis R_refl : ∀ o, R o o.
Hypothesis R_trans : ∀ o1 o2 o3, R o1 o2 → R o2 o3 → R o1 o3.

Lemma rows_related_refl db : rows_related R db db.
Proof. intros k. destruct (db !! k); by constructor. Qed.

Lemma rows_related_trans db1 db2 db3 :
  rows_related R db1 db2 → rows_related R db2 db3 → rows_related R db1 db3.
Proof.
  intros H12 H23 k. specialize (H12 k). specialize (H23 k).
  destruct H12; inversion H23; constructor; eauto.
Qed.

Lemma order_update_related i f db db' :
  (∀ o, R o (f o)) → order_update i f db = Some db' → rows_related R db db'.
Proof.
  unfold order_update. intros Hf Hup k.
  destruct (db !! i) as [o|] eqn:Hi; [|done]. injection Hup as <-.
  destruct (decide (i = k)) as [->|Hne].
  - rewrite lookup_insert_eq, Hi. by constructor.
  - rewrite lookup_insert_ne by done. destruct (db !! k); by constructor.
Qed.

Lemma evolves_refl s : evolves R s s.
Proof. split; [done | apply rows_related_refl]. Qed.

Lemma evolves_trans s1 s2 s3 :
  evolves R s1 s2 → evolves R s2 s3 → evolves R s1 s3.
Proof.
  intros [] []. split; [by etrans | by eapply rows_related_trans].
Qed.

(** A step that touches neither table. *)
Lemma evolves_same s s' :
  store s' = store s → trades s' = trades s → evolves R s s'.
Proof. intros Hs Ht. split; [by rewrite Ht | rewrite Hs; apply rows_related_refl]. Qed.

End Rows.

Lemma rows_related_impl (R R' : Order → Order → Prop) db db' :
  (∀ o o', R o o' → R' o o') → rows_related R db db' → rows_related R' db db'.
Proof. intros HR H k. destruct (H k); constructor; auto. Qed.

Lemma evolves_terms_identity s s' :
  evolves same_terms s s' → evolves same_identity s s'.
Proof.
  intros [? ?]. split; [done|].
  eapply rows_related_impl; [apply same_terms_identity | done].
Qed.

Create HintDb rows.
#[local] Hint Resolve same_terms_refl same_terms_trans same_identity_refl
  same_identity_trans : rows.

Lemma set_filled_terms r u o : same_terms o (set_filled r u o).
Proof. by repeat split. Qed.

Lemma set_quantity_identity q o : same_identity o (set_quantity q o).
Proof. by repeat split. Qed.

Lemma set_price_identity p o : same_identity o (set_price p o).
Proof. by repeat split. Qed.

Lemma executeMatch_evolves env bid offer s :
  evolves same_terms s (executeMatch env bid offer s).
Proof.
  unfold executeMatch.
  destruct (negb _); [by apply evolves_refl; auto with rows|].
  destruct (matchTransaction bid offer (store s)) as [[[[db trade] bR] oR]|] eqn:Htx;
    [|by apply evolves_refl; auto with rows].
  unfold sendTradeExecutedNotification, notifyUserViaWhatsApp.
  assert (Hrel : rows_related same_terms (store s) db).
  { unfold matchTransaction in Htx.
    destruct (order_update (id bid) _ _) as [db1|] eqn:H1; [|done].
    destruct (order_update (id offer) _ _) as [db2|] eqn:H2; [|done].
    injection Htx as <- _ _ _.
    exact (rows_related_trans same_terms same_terms_trans _ _ _
             (order_update_related same_terms same_terms_refl _ _ _ _
                (set_filled_terms _ _) H1)
             (order_update_related same_terms same_terms_refl _ _ _ _
                (set_filled_terms _ _) H2)). }
  destruct (dbUp env); simpl; (split; [by apply prefix_app_r | done]).
Qed.

Lemma requestQuantityConfirmation_store_trades env a b o s :
  store (requestQuantityConfirmation env a b o s) = store s
  ∧ trades (requestQuantityConfirmation env a b o s) = trades s.
Proof.
  unfold requestQuantityConfirmation, setTimeout, notifyUserViaWhatsApp.
  destruct (JsMap.has _ _); [done|]. case_bool_decide; [done|].
  by destruct (dbUp env).
Qed.

Lemma sendCompetitiveBiddingAlerts_store_trades env a b o s :
  store (sendCompetitiveBiddingAlerts env a b o s) = store s
  ∧ trades (sendCompetitiveBiddingAlerts env a b o s) = trades s.
Proof.
  unfold sendCompetitiveBiddingAlerts, notifyUserViaWhatsApp. by split_tests.
Qed.

Lemma getActiveOrders_store_trades env s :
  store (getActiveOrders env s).2 = store s
  ∧ trades (getActiveOrders env s).2 = trades s.
Proof. unfold getActiveOrders. by split_tests. Qed.

Lemma askLargerParty_store_trades env key c s :
  store (askLargerParty env key c s) = store s
  ∧ trades (askLargerParty env key c s) = trades s.
Proof.
  unfold askLargerParty, setTimeout, notifyUserViaWhatsApp. by destruct (dbUp env).
Qed.

Lemma processAssetMatching_evolves env a orders s :
  evolves same_terms s (processAssetMatching env a orders s).
Proof.
  rewrite processAssetMatching_best.
  destruct (bestBidOf orders) as [b|]; [|by apply evolves_refl; auto with rows].
  destruct (bestOfferOf orders) as [o|]; [|by apply evolves_refl; auto with rows].
  unfold decide_pair.
  destruct (price b =? price o).
  - destruct (negb _); [|apply executeMatch_evolves].
    destruct (requestQuantityConfirmation_store_trades env a b o s).
    apply evolves_same; auto with rows.
  - match goal with
    | |- context [negotiate env a b o ?t] =>
        destruct (negotiate_store_trades env a b o t) as [Hs Ht];
        assert (store t = store s ∧ trades t = trades s) as [Hs' Ht']
    end.
    { destruct (_ <? _); [apply sendCompetitiveBiddingAlerts_store_trades | done]. }
    apply evolves_same; auto with rows; congruence.
Qed.

Lemma processMatchingInMemory_evolves env orders s :
  evolves same_terms s (processMatchingInMemory env orders s).
Proof.
  unfold processMatchingInMemory.
  generalize (sortBy byCountDesc (groupByAsset orders)). intros l.
  revert s. induction l as [|e l IH]; intros s; simpl.
  - apply evolves_refl; auto with rows.
  - eapply evolves_trans; [eauto with rows| |apply IH].
    apply processAssetMatching_evolves.
Qed.

Lemma processMatching_evolves env s :
  evolves same_terms s (processMatching env s).
Proof.
  unfold processMatching.
  set (s0 := redis_set lastRunKey _ 600 s).
  destruct (getActiveOrders_store_trades env s0) as [Hs Ht].
  destruct (getActiveOrders env s0) as [orders s1]. simpl in Hs, Ht.
  assert (H1 : evolves same_terms s s1) by (apply evolves_same; auto with rows).
  assert (H2 : ∀ s2, store s2 = store s1 → trades s2 = trades s1 →
                 evolves same_terms s (processMatchingInMemory env orders s2)).
  { intros s2 Hs2 Ht2.
    eapply evolves_trans; [eauto with rows|exact H1|].
    eapply evolves_trans; [eauto with rows| |apply processMatchingInMemory_evolves].
    apply evolves_same; auto with rows. }
  destruct (truthy _).
  - destruct (_ =? _)%nat; [done | by apply H2].
  - destruct (_ <? _)%nat; [|by apply evolves_same; auto with rows].
    destruct (_ =? _)%nat; [by apply evolves_same; auto with rows | by apply H2].
Qed.

Lemma processAsset_evolves env a s : evolves same_terms s (processAsset env a s).
Proof.
  unfold processAsset.
  destruct (negb _); [by apply evolves_refl; auto with rows|].
  destruct (_ <? _)%nat; [by apply evolves_refl; auto with rows|].
  eapply evolves_trans; [eauto with rows|apply processAssetMatching_evolves|].
  apply evolves_same; auto with rows.
Qed.

Lemma handleQuantityConfirmationResponse_evolves env key acc nq s :
  evolves same_identity s (handleQuantityConfirmationResponse env key acc nq s).
Proof.
  unfold handleQuantityConfirmationResponse.
  destruct (JsMap.get key (pendingConfirmations s)) as [c|];
    [|by apply evolves_refl; auto with rows].
  destruct (state c).
  - destruct (acceptedQuantity acc nq) as [q|].
    + unfold growAndMatch.
      destruct (negb _); [by apply evolves_same; auto with rows|].
      destruct (order_update _ _ _) as [db|] eqn:Hup;
        [|by apply evolves_same; auto with rows].
      assert (Hrel : rows_related same_identity (store s) db).
      { exact (order_update_related same_identity same_identity_refl _ _ _ _
                 (set_quantity_identity q) Hup). }
      destruct (db !! _) as [ub|]; [|by split].
      destruct (db !! _) as [uo|]; [|by split].
      eapply evolves_trans; [eauto with rows| |
        apply evolves_terms_identity, executeMatch_evolves].
      by split.
    + match goal with
      | |- context [askLargerParty env key ?c' ?t] =>
          destruct (askLargerParty_store_trades env key c' t) as [Hs Ht]
      end.
      apply evolves_same; auto with rows.
  - destruct acc; [|by apply evolves_same; auto with rows].
    eapply evolves_trans; [eauto with rows| |
      apply evolves_terms_identity, executeMatch_evolves].
    apply evolves_same; auto with rows.
Qed.

Lemma clearTimeout_opt_store_trades h s :
  store (clearTimeout_opt h s) = store s ∧ trades (clearTimeout_opt h s) = trades s.
Proof. by destruct h. Qed.

Lemma handleNegotiationResponse_evolves env a user improved newPrice s :
  evolves same_identity s (handleNegotiationResponse env a user improved newPrice s).
Proof.
  unfold handleNegotiationResponse.
  destruct (negotiationState s !! a) as [st|];
    [|by apply evolves_refl; auto with rows].
  destruct (clearTimeout_opt_store_trades (n_timeout st) s) as [Hs0 Ht0].
  destruct improved; [destruct newPrice as [p|]|].
  - match goal with
    | |- context [match ?u with Some _ => _ | None => _ end] =>
        destruct u as [db|] eqn:Hup
    end; [|by apply evolves_same; auto with rows].
    assert (Hrel : rows_related same_identity (store s) db).
    { rewrite <- Hs0.
      destruct (if _ && _ then _ else _) as [ord|].
      - destruct (dbUp env); [|done].
        exact (order_update_related same_identity same_identity_refl _ _ _ _
                 (set_price_identity p) Hup).
      - injection Hup as <-.
        exact (rows_related_refl same_identity same_identity_refl _). }
    match goal with
    | |- context [getActiveOrders env ?t] =>
        destruct (getActiveOrders_store_trades env t) as [Hs Ht];
        destruct (getActiveOrders env t) as [orders s1]
    end.
    simpl in Hs, Ht.
    eapply evolves_trans; [eauto with rows| |
      apply evolves_terms_identity, processAssetMatching_evolves].
    split; [by rewrite Ht; simpl; rewrite Ht0 | by rewrite Hs].
  - match goal with
    | |- context [notifyNegotiation env a ?t] =>
        destruct (notifyNegotiation_store_trades env a t) as [Hs Ht]
    end.
    apply evolves_same; auto with rows; simpl in *; congruence.
  - apply evolves_same; auto with rows.
Qed.

Lemma step_evolves e s :
  isDatabaseWrite e = false → evolves same_identity s (step e s).
Proof.
  intros Hnw. destruct e; simpl; try done.
  - apply evolves_terms_identity, processMatching_evolves.
  - apply evolves_terms_identity, processAsset_evolves.
  - apply handleNegotiationResponse_evolves.
  - apply handleQuantityConfirmationResponse_evolves.
  - apply evolves_same; auto with rows.
  - unfold runTimer. destruct (timers s !! h) as [[cb d]|];
      [|by apply evolves_refl; auto with rows].
    destruct cb; [|by apply evolves_same; auto with rows].
    eapply evolves_trans; [eauto with rows| |
      apply handleQuantityConfirmationResponse_evolves].
    apply evolves_same; auto with rows.
Qed.

Lemma step_trades_prefix e s : trades s `prefix_of` trades (step e s).
Proof.
  destruct (isDatabaseWrite e) eqn:He.
  - by destruct e.
  - by destruct (step_evolves e s He).
Qed.

(** X7.  The trades table only grows: whatever happens to the engine, the
    trades it had are still there, in the same order and unchanged, followed
    by the ones committed since. *)
Theorem trades_append_only (es : list Event) (s : Engine) :
  trades s `prefix_of` trades (run es s).
Proof.
  revert s. induction es as [|e es IH]; intros s; [done|].
  simpl. etrans; [apply step_trades_prefix | apply IH].
Qed.

(** X8.  As long as nobody else writes to the database, the engine neither
    adds nor removes an order row, and never changes the id, the side, the
    asset, the user or the creation time of one. *)
Theorem engine_keeps_order_identity (es : list Event) (s : Engine) :
  forallb (λ e, negb (isDatabaseWrite e)) es = true →
  rows_related same_identity (store s) (store (run es s)).
Proof.
  revert s. induction es as [|e es IH]; intros s Hes; simpl.
  - exact (rows_related_refl same_identity same_identity_refl _).
  - simpl in Hes. apply andb_true_iff in Hes as [He Hes].
    apply negb_true_iff in He.
    destruct (step_evolves e s He) as [_ Hstep].
    exact (rows_related_trans same_identity same_identity_trans _ _ _
             Hstep (IH _ Hes)).
Qed.

(** The second scenario of the spec: the bid grows to 7 lots and both orders
    are matched; the two rows are still the two orders. *)
Lemma engine_keeps_order_identity_witness :
  rows_related same_identity (store (newEngine db_B2_O2))
    (store (run [Tick (mkEnv 100000 true);
                 QuantityConfirmationResponse (mkEnv 101000 true) "gold:B2:O2"
                   true (Some 7)]
                (newEngine db_B2_O2))).
Proof. apply engine_keeps_order_identity. reflexivity. Defined.
